(** * Embedding shim over the llama.cpp C API

    A shallow embedding of [internal/llama_shim/llama_shim.c]: the two
    numeric helpers [rm_copy_f32] and [rm_l2_normalize], and the extraction
    entry point [rm_llama_embed_text].  The inference engine (llama.cpp) and
    the C allocator are external collaborators: they are taken as
    interfaces, and every statement about the shim is proved for an
    arbitrary implementation of them.  A small executable engine runs the
    shim on concrete inputs. *)

From Stdlib Require Import ZArith Lia Bool SpecFloat.
From Stdlib.Strings Require Import Byte.
From stdpp Require Import base tactics option list.

Local Open Scope Z_scope.

(** ** C integer conversions *)

Module CInt.

Definition INT32_MIN : Z := - 2 ^ 31.
Definition INT32_MAX : Z := 2 ^ 31 - 1.

(** Conversion to [int32_t]: the value is reduced modulo 2^32 into the
    signed range (what gcc, clang and msvc do for an out-of-range value). *)
Definition to_int32 (z : Z) : Z := (z + 2 ^ 31) mod 2 ^ 32 - 2 ^ 31.

(** Conversion to [size_t] on an LP64 target, and arithmetic in it. *)
Definition to_size_t (z : Z) : Z := z mod 2 ^ 64.

Definition sizeof_llama_token : Z := 4.
Definition sizeof_float : Z := 4.

End CInt.
Import CInt.

(** ** IEEE 754 binary32 and binary64 *)

Module FP.

(** [float] and [double] values, in the format-independent representation
    of the Standard Library; the operations round to nearest, ties to
    even. *)
Definition float : Type := spec_float.
Definition double : Type := spec_float.

Definition f32_prec : Z := 24.
Definition f32_emax : Z := 128.
Definition f64_prec : Z := 53.
Definition f64_emax : Z := 1024.

Definition f32_mul : float -> float -> float := SFmul f32_prec f32_emax.
Definition f64_mul : double -> double -> double := SFmul f64_prec f64_emax.
Definition f64_add : double -> double -> double := SFadd f64_prec f64_emax.
Definition f64_div : double -> double -> double := SFdiv f64_prec f64_emax.
Definition f64_sqrt : double -> double := SFsqrt f64_prec f64_emax.
Definition f64_leb : double -> double -> bool := SFleb.

Definition f64_zero : double := S754_zero false.
Definition f64_one : double := SFone f64_prec f64_emax.

(** The cast [(double) x]. *)
Definition double_of_float (x : float) : double :=
  match x with
  | S754_finite s m e => binary_round f64_prec f64_emax s m e
  | _ => x
  end.

(** The cast [(float) x]. *)
Definition float_of_double (x : double) : float :=
  match x with
  | S754_finite s m e => binary_round f32_prec f32_emax s m e
  | _ => x
  end.

Definition is_zero (x : spec_float) : bool :=
  match x with S754_zero _ => true | _ => false end.

Definition is_nan (x : spec_float) : bool :=
  match x with S754_nan => true | _ => false end.

#[global] Instance float_inhabited : Inhabited spec_float :=
  populate (S754_zero false).

End FP.
Import FP.

(** ** The numeric helpers *)

(** [memcpy(dst, src, n * sizeof(float))] on buffers of floats: the first
    [n] elements of [dst] are replaced by those of [src]. *)
Definition memcpy_f32 (dst src : list float) (n : nat) : list float :=
  take n src ++ drop n dst.

Definition rm_copy_f32 (dst src : list float) (n : Z) : list float :=
  if n <=? 0 then dst
  else memcpy_f32 dst src (Z.to_nat n).

(** The first loop of [rm_l2_normalize]: [sum += v * v] for [i] in [0, n). *)
Definition sum_squares (src : list float) (n : nat) : double :=
  foldl (fun sum i =>
           let v := double_of_float (src !!! i) in
           f64_add sum (f64_mul v v))
        f64_zero (seq 0 n).

(** The second loop: [dst[i] = src[i] * inv] for [i] in [0, n). *)
Definition scale_loop (dst src : list float) (inv : float) (n : nat) : list float :=
  foldl (fun d i => <[ i := f32_mul (src !!! i) inv ]> d) dst (seq 0 n).

Definition rm_l2_normalize (dst src : list float) (n : Z) : list float :=
  if n <=? 0 then dst
  else
    let sum := sum_squares src (Z.to_nat n) in
    let norm := f64_sqrt sum in
    if f64_leb norm f64_zero then rm_copy_f32 dst src n
    else
      let inv := float_of_double (f64_div f64_one norm) in
      scale_loop dst src inv (Z.to_nat n).

(** ** The inference engine and the allocator *)

(** A context as the shim sees it: the attention memory that
    [llama_get_memory] hands out ([None] when the context has no memory
    object and the call returns [NULL]), and everything else the engine
    keeps in the context (thread settings, output buffers, ...). *)
Record llama_context (Mem Rest : Type) : Type := LlamaContext {
  ctx_memory : option Mem;
  ctx_rest : Rest
}.
Arguments LlamaContext {Mem Rest} _ _.
Arguments ctx_memory {Mem Rest} _.
Arguments ctx_rest {Mem Rest} _.

Definition llama_token : Type := Z.

(** [struct llama_batch]: the fields that [llama_batch_get_one] fills; the
    others are null. *)
Record llama_batch : Type := LlamaBatch {
  n_tokens : Z;
  token : list llama_token
}.

(** The subset of the llama.cpp API declared in [llama_min.h] that
    [rm_llama_embed_text] calls. *)
Class Engine : Type := {
  llama_model : Type;
  llama_vocab : Type;
  llama_memory_i : Type;
  llama_ctx_rest : Type;
  llama_model_n_embd : llama_model -> Z;
  llama_model_get_vocab : llama_model -> option llama_vocab;
  (** Returns the return value and the contents of the token buffer. *)
  llama_tokenize :
    llama_vocab -> list Byte.byte -> Z -> Z -> bool -> bool ->
    Z * list llama_token;
  llama_memory_clear : llama_memory_i -> bool -> llama_memory_i;
  llama_set_n_threads :
    llama_context llama_memory_i llama_ctx_rest -> Z -> Z ->
    llama_context llama_memory_i llama_ctx_rest;
  llama_decode :
    llama_context llama_memory_i llama_ctx_rest -> llama_batch ->
    Z * llama_context llama_memory_i llama_ctx_rest;
  llama_get_embeddings_seq :
    llama_context llama_memory_i llama_ctx_rest -> Z -> option (list float);
  llama_get_embeddings :
    llama_context llama_memory_i llama_ctx_rest -> option (list float)
}.

Definition context `{Engine} : Type :=
  llama_context llama_memory_i llama_ctx_rest.

Definition llama_get_memory `{Engine} (ctx : context) : option llama_memory_i :=
  ctx_memory ctx.

Definition llama_batch_get_one (tokens : list llama_token) (n : Z) : llama_batch :=
  {| n_tokens := n; token := tokens |}.

(** [malloc] and [free]. *)
Class Libc : Type := {
  heap : Type;
  ptr : Type;
  malloc : heap -> Z -> option ptr * heap;
  free : heap -> ptr -> heap
}.

(** A pointer returned by the engine or the allocator, tested against
    [NULL]. *)
Definition nonnull {A} (p : option A) : bool :=
  match p with Some _ => true | None => false end.

(** [text] holds the bytes behind a [const char *]; the string ends at the
    first zero byte, or where the list ends. *)
Fixpoint strlen (text : list Byte.byte) : Z :=
  match text with
  | [] => 0
  | Byte.x00 :: _ => 0
  | _ :: rest => 1 + strlen rest
  end.

(** ** Calls and returns observed during one extraction *)

Inductive event : Type :=
| EvModelNEmbd (ret : Z)
| EvGetMemory (nonnull : bool)
| EvMemoryClear (data : bool)
| EvSetNThreads (n_threads n_threads_batch : Z)
| EvModelGetVocab (nonnull : bool)
| EvMalloc (size : Z) (nonnull : bool)
| EvFree
| EvTokenize (text_len n_tokens_max ret : Z)
| EvDecode (batch_n_tokens ret : Z)
| EvGetEmbeddingsSeq (seq_id : Z) (ret : option (list float))
| EvGetEmbeddings (ret : option (list float)).

Definition is_memory_clear (e : event) : bool :=
  match e with EvMemoryClear _ => true | _ => false end.
Definition is_set_n_threads (e : event) : bool :=
  match e with EvSetNThreads _ _ => true | _ => false end.
Definition is_get_vocab (e : event) : bool :=
  match e with EvModelGetVocab _ => true | _ => false end.
Definition is_malloc (e : event) : bool :=
  match e with EvMalloc _ _ => true | _ => false end.
Definition is_tokenize (e : event) : bool :=
  match e with EvTokenize _ _ _ => true | _ => false end.
Definition is_decode (e : event) : bool :=
  match e with EvDecode _ _ => true | _ => false end.
Definition is_get_embeddings (e : event) : bool :=
  match e with EvGetEmbeddings _ => true | _ => false end.

(** ** State and early return *)

Section Shim.
Context `{E : Engine} `{L : Libc}.

(** What one call can read and change: the context behind [ctx], the heap,
    the caller's buffer behind [out]; and the calls made so far. *)
Record world : Type := World {
  w_ctx : context;
  w_heap : heap;
  w_out : list float;
  w_trace : list event
}.

Inductive flow (A : Type) : Type :=
| Next (a : A)
| Return (rc : Z).
Arguments Next {A} _.
Arguments Return {A} _.

Definition M (A : Type) : Type := world -> flow A * world.

#[local] Instance M_ret : MRet M := fun A a w => (Next a, w).
#[local] Instance M_bind : MBind M := fun A B k c w =>
  match c w with
  | (Next a, w') => k a w'
  | (Return rc, w') => (Return rc, w')
  end.

Definition exit {A} (rc : Z) : M A := fun w => (Return rc, w).

Definition log (e : event) : M unit := fun w =>
  (Next tt, World (w_ctx w) (w_heap w) (w_out w) (w_trace w ++ [e])).

Definition get_ctx : M context := fun w => (Next (w_ctx w), w).
Definition put_ctx (c : context) : M unit := fun w =>
  (Next tt, World c (w_heap w) (w_out w) (w_trace w)).
Definition get_out : M (list float) := fun w => (Next (w_out w), w).
Definition put_out (o : list float) : M unit := fun w =>
  (Next tt, World (w_ctx w) (w_heap w) o (w_trace w)).

(** *** The calls into the engine and the allocator *)

Definition call_model_n_embd (model : llama_model) : M Z :=
  let n := llama_model_n_embd model in
  log (EvModelNEmbd n);; mret n.

Definition call_get_memory : M (option llama_memory_i) :=
  c ← get_ctx;
  let mem := llama_get_memory c in
  log (EvGetMemory (nonnull mem));; mret mem.

(** [mem] points into the context: clearing it changes the context. *)
Definition call_memory_clear (mem : llama_memory_i) (data : bool) : M unit :=
  c ← get_ctx;
  log (EvMemoryClear data);;
  put_ctx (LlamaContext (Some (llama_memory_clear mem data)) (ctx_rest c)).

Definition call_set_n_threads (n_threads n_threads_batch : Z) : M unit :=
  c ← get_ctx;
  log (EvSetNThreads n_threads n_threads_batch);;
  put_ctx (llama_set_n_threads c n_threads n_threads_batch).

Definition call_model_get_vocab (model : llama_model) : M (option llama_vocab) :=
  let v := llama_model_get_vocab model in
  log (EvModelGetVocab (nonnull v));; mret v.

Definition call_malloc (size : Z) : M (option ptr) := fun w =>
  let '(p, h) := malloc (w_heap w) size in
  (Next p,
   World (w_ctx w) h (w_out w)
         (w_trace w ++ [EvMalloc size (nonnull p)])).

Definition call_free (p : ptr) : M unit := fun w =>
  (Next tt,
   World (w_ctx w) (free (w_heap w) p) (w_out w) (w_trace w ++ [EvFree])).

Definition call_tokenize (vocab : llama_vocab) (text : list Byte.byte)
    (text_len n_tokens_max : Z) (add_special parse_special : bool)
  : M (Z * list llama_token) :=
  let r := llama_tokenize vocab text text_len n_tokens_max
                          add_special parse_special in
  log (EvTokenize text_len n_tokens_max (fst r));; mret r.

Definition call_decode (batch : llama_batch) : M Z :=
  c ← get_ctx;
  let '(rc, c') := llama_decode c batch in
  log (EvDecode (n_tokens batch) rc);;
  put_ctx c';; mret rc.

Definition call_get_embeddings_seq (seq_id : Z) : M (option (list float)) :=
  c ← get_ctx;
  let r := llama_get_embeddings_seq c seq_id in
  log (EvGetEmbeddingsSeq seq_id r);; mret r.

Definition call_get_embeddings : M (option (list float)) :=
  c ← get_ctx;
  let r := llama_get_embeddings c in
  log (EvGetEmbeddings r);; mret r.

(** *** [rm_llama_embed_text] *)

(** The body, entered once the four pointers are known to be non-null. *)
Definition embed_text_body (model : llama_model) (text : list Byte.byte)
    (add_special parse_special : bool)
    (out_len n_threads n_threads_batch normalize : Z) : M Z :=
  n_embd ← call_model_n_embd model;
  if (n_embd <=? 0) || (out_len <? n_embd) then exit (-2) else
  (* Reset memory state between calls so each embedding is independent. *)
  mem ← call_get_memory;
  match mem with
  | Some m => call_memory_clear m true
  | None => mret tt
  end;;
  (* Apply per-call thread settings. *)
  (if (n_threads >? 0) || (n_threads_batch >? 0)
   then call_set_n_threads n_threads n_threads_batch
   else mret tt);;
  vocab ← call_model_get_vocab model;
  match vocab with
  | None => exit (-3)
  | Some vocab =>
    let text_len := strlen text in
    let n_tokens_max := to_int32 (to_size_t (text_len + 8)) in
    let n_tokens_max := if n_tokens_max <? 16 then 16 else n_tokens_max in
    tokens ← call_malloc (to_size_t (to_size_t n_tokens_max * sizeof_llama_token));
    match tokens with
    | None => exit (-4)
    | Some tokens =>
      r ← call_tokenize vocab text (to_int32 text_len) n_tokens_max
                        add_special parse_special;
      tr ← (if fst r <? 0 then
              let needed := to_int32 (- fst r) in
              call_free tokens;;
              tokens ← call_malloc (to_size_t (to_size_t needed * sizeof_llama_token));
              match tokens with
              | None => exit (-4)
              | Some tokens =>
                r ← call_tokenize vocab text (to_int32 text_len) needed
                                  add_special parse_special;
                mret (tokens, r)
              end
            else mret (tokens, r));
      let '(tokens, (n_tokens, buf)) := tr in
      if n_tokens <=? 0 then call_free tokens;; exit (-5) else
      let batch := llama_batch_get_one buf n_tokens in
      rc ← call_decode batch;
      call_free tokens;;
      if negb (rc =? 0) then exit rc else
      embd ← call_get_embeddings_seq 0;
      embd ← match embd with
              | None => call_get_embeddings
              | Some _ => mret embd
              end;
      match embd with
      | None => exit (-6)
      | Some embd =>
        out ← get_out;
        (if normalize =? 2
         then put_out (rm_l2_normalize out embd n_embd)
         else put_out (rm_copy_f32 out embd n_embd));;
        mret 0
      end
    end
  end.

(** What the caller observes after the call. *)
Record outcome : Type := Outcome {
  rc : Z;
  ctx_after : option context;
  out_after : option (list float);
  heap_after : heap;
  trace : list event
}.

Definition return_code {A} (f : flow A) (val : A -> Z) : Z :=
  match f with Next a => val a | Return rc => rc end.

(** A pointer argument is [None] when it is [NULL]; a non-null [ctx] or
    [out] carries what it points to when the call starts. *)
Definition rm_llama_embed_text (h : heap)
    (ctx : option context) (model : option llama_model)
    (text : option (list Byte.byte)) (add_special parse_special : bool)
    (out : option (list float))
    (out_len n_threads n_threads_batch normalize : Z) : outcome :=
  match ctx, model, text, out with
  | Some c, Some model, Some text, Some o =>
    let '(f, w) := embed_text_body model text add_special parse_special
                     out_len n_threads n_threads_batch normalize
                     (World c h o []) in
    Outcome (return_code f id) (Some (w_ctx w)) (Some (w_out w))
            (w_heap w) (w_trace w)
  | _, _, _, _ => Outcome (-1) ctx out h []
  end.

End Shim.

(** ** Vocabulary of the statements *)

(** The names the specification gives to the return codes. *)
Definition NullArgument : Z := -1.
Definition OutputBufferTooSmall : Z := -2.
Definition VocabularyUnavailable : Z := -3.
Definition BufferAllocationFailed : Z := -4.
Definition EmptyOrFailedTokenization : Z := -5.
Definition EmbeddingsUnavailable : Z := -6.

(** The embedding that the retrieval step reads from a context: the
    per-sequence one for sequence 0, else the raw one. *)
Definition retrieved_embedding `{Engine} (c : context) : option (list float) :=
  match llama_get_embeddings_seq c 0 with
  | Some e => Some e
  | None => llama_get_embeddings c
  end.

(** The output step: the normalizer chosen by [normalize]. *)
Definition normalizer (normalize : Z) (out embd : list float) (n_embd : Z)
  : list float :=
  if normalize =? 2 then rm_l2_normalize out embd n_embd
  else rm_copy_f32 out embd n_embd.

(** The context once its memory, if it has one, has been cleared. *)
Definition reset_context `{Engine} (c : context) : context :=
  match ctx_memory c with
  | Some m => LlamaContext (Some (llama_memory_clear m true)) (ctx_rest c)
  | None => c
  end.

(** The calls that open every extraction that passes the argument checks. *)
Definition reset_events `{Engine} (model : llama_model) (c : context) : list event :=
  [EvModelNEmbd (llama_model_n_embd model); EvGetMemory (nonnull (ctx_memory c))]
  ++ (if nonnull (ctx_memory c) then [EvMemoryClear true] else []).

(** The allocations and tokenizer calls of a trace, in order. *)
Definition token_events (t : list event) : list event :=
  List.filter (fun e => is_malloc e || is_tokenize e) t.

(** The capacity estimate in the words of the specification:
    [byte_length(text) + 8], floored at 16. *)
Definition initial_capacity (text_len : Z) : Z := Z.max (text_len + 8) 16.

(** The token buffer protocol in the words of the specification: a first
    tokenizer call at the capacity estimate, one retry at the exact size the
    tokenizer asked for, and the two errors.  The second index is the return
    code that the protocol forces, if it forces one. *)
Inductive token_protocol (text_len : Z) : list event -> option Z -> Prop :=
| TP_alloc_failed :
    token_protocol text_len
      [EvMalloc (4 * initial_capacity text_len) false]
      (Some BufferAllocationFailed)
| TP_fits (n : Z) :
    0 <= n ->
    token_protocol text_len
      [EvMalloc (4 * initial_capacity text_len) true;
       EvTokenize text_len (initial_capacity text_len) n]
      (if n <=? 0 then Some EmptyOrFailedTokenization else None)
| TP_retry_alloc_failed (n : Z) :
    n < 0 ->
    token_protocol text_len
      [EvMalloc (4 * initial_capacity text_len) true;
       EvTokenize text_len (initial_capacity text_len) n;
       EvMalloc (4 * Z.abs n) false]
      (Some BufferAllocationFailed)
| TP_retry (n m : Z) :
    n < 0 ->
    token_protocol text_len
      [EvMalloc (4 * initial_capacity text_len) true;
       EvTokenize text_len (initial_capacity text_len) n;
       EvMalloc (4 * Z.abs n) true;
       EvTokenize text_len (Z.abs n) m]
      (if m <=? 0 then Some EmptyOrFailedTokenization else None).

(** ** A small engine to run the shim on

    Two tokens per byte of text (plus a leading token 1 when [add_special]),
    [INT32_MIN] when the count does not fit [int32_t];
    the attention memory is the list of tokens decoded since the last
    clear; the embedding that a forward pass leaves in the context is
    computed from the whole memory, so that state left by an earlier call
    shows in the result unless it is cleared. *)

Module Stub.

Record model : Type := Model {
  m_n_embd : Z;
  m_has_vocab : bool
}.

Record rest : Type := Rest {
  r_n_threads : Z;
  r_n_threads_batch : Z;
  r_n_embd : nat;
  r_n_ctx : Z;            (* token capacity of the context *)
  r_pooled : bool;        (* per-sequence embeddings are produced *)
  r_embeddings : bool;    (* raw embeddings are produced *)
  r_output : option (list float)
}.

Definition f32_of_Z (z : Z) : float :=
  binary_normalize f32_prec f32_emax z 0 false.

Definition tokenize (_ : unit) (text : list Byte.byte) (text_len cap : Z)
    (add_special _ : bool) : Z * list llama_token :=
  let n := 2 * text_len + (if add_special then 1 else 0) in
  if INT32_MAX <? n then (INT32_MIN, [])
  else if cap <? n then (- n, [])
  else (n, (if add_special then [1] else []) ++
           flat_map (fun b => let v := Z.of_N (Byte.to_N b) in [v / 16; v mod 16])
                    (take (Z.to_nat text_len) text)).

Definition sum_tokens (l : list llama_token) : Z := foldr Z.add 0 l.

Definition decode (c : llama_context (list llama_token) rest) (b : llama_batch)
  : Z * llama_context (list llama_token) rest :=
  let r := ctx_rest c in
  if r_n_ctx r <? n_tokens b then (1, c)
  else
    let seen := default [] (ctx_memory c) ++ take (Z.to_nat (n_tokens b)) (token b) in
    let e := map (fun i => f32_of_Z (sum_tokens seen + Z.of_nat i)) (seq 0 (r_n_embd r)) in
    (0, LlamaContext (fmap (fun _ => seen) (ctx_memory c))
          (Rest (r_n_threads r) (r_n_threads_batch r) (r_n_embd r) (r_n_ctx r)
                (r_pooled r) (r_embeddings r) (Some e))).

Definition set_n_threads (c : llama_context (list llama_token) rest) (n nb : Z)
  : llama_context (list llama_token) rest :=
  let r := ctx_rest c in
  LlamaContext (ctx_memory c)
    (Rest n nb (r_n_embd r) (r_n_ctx r) (r_pooled r) (r_embeddings r) (r_output r)).

#[export] Instance engine : Engine := {|
  llama_model := model;
  llama_vocab := unit;
  llama_memory_i := list llama_token;
  llama_ctx_rest := rest;
  llama_model_n_embd := m_n_embd;
  llama_model_get_vocab := fun m => if m_has_vocab m then Some tt else None;
  llama_tokenize := tokenize;
  llama_memory_clear := fun _ _ => [];
  llama_set_n_threads := set_n_threads;
  llama_decode := decode;
  llama_get_embeddings_seq := fun c _ =>
    if r_pooled (ctx_rest c) then r_output (ctx_rest c) else None;
  llama_get_embeddings := fun c =>
    if r_embeddings (ctx_rest c) then r_output (ctx_rest c) else None
|}.

(** A heap of [h] free bytes; a block is known by its size. *)
#[export] Instance libc : Libc := {|
  heap := Z;
  ptr := Z;
  malloc := fun h size => if size <=? h then (Some size, h - size) else (None, h);
  free := fun h p => h + p
|}.

Definition model4 : model := Model 4 true.

Definition fresh (mem : option (list llama_token)) : context :=
  LlamaContext mem (Rest 8 8 4 512 true true None).

Definition hello : list Byte.byte :=
  [Byte.x68; Byte.x65; Byte.x6c; Byte.x6c; Byte.x6f].

Definition zeros (n : nat) : list float := replicate n (S754_zero false).

(** Twenty bytes: more tokens than the first capacity estimate. *)
Definition long_text : list Byte.byte := replicate 20 Byte.x61.

(** A text of 2^31 - 8 bytes. *)
Definition huge_text : list Byte.byte :=
  replicate (Z.to_nat 2147483640) Byte.x61.

(** The extraction call with a 4 KiB heap. *)
Definition run_on (text : list Byte.byte) (c : context) (out : list float)
    (out_len n_threads n_threads_batch normalize : Z) : outcome :=
  rm_llama_embed_text (4096 : heap) (Some c) (Some model4) (Some text) true false
    (Some out) out_len n_threads n_threads_batch normalize.

Definition run := run_on hello.

End Stub.

(** ** More vocabulary for the extraction call *)

Definition is_get_embeddings_seq (e : event) : bool :=
  match e with EvGetEmbeddingsSeq _ _ => true | _ => false end.
Definition is_free (e : event) : bool :=
  match e with EvFree => true | _ => false end.
Definition is_malloc_ok (e : event) : bool :=
  match e with EvMalloc _ true => true | _ => false end.

(** The context after the reset and the thread setting, as the forward pass
    or a failing later step finds it. *)
Definition configured_context `{Engine} (c : context) (n_threads n_threads_batch : Z)
  : context :=
  if (n_threads >? 0) || (n_threads_batch >? 0)
  then llama_set_n_threads (reset_context c) n_threads n_threads_batch
  else reset_context c.

Definition thread_events (n_threads n_threads_batch : Z) : list event :=
  if (n_threads >? 0) || (n_threads_batch >? 0)
  then [EvSetNThreads n_threads n_threads_batch]
  else [].

(** ** The handle functions of the shim *)

(** [struct llama_model_params] of [llama_min.h]; pointers and callbacks
    are kept as addresses, enumerations as their integer values. *)
Module ModelParams.
Record t : Type := Make {
  devices : Z;
  tensor_buft_overrides : Z;
  n_gpu_layers : Z;
  split_mode : Z;
  main_gpu : Z;
  tensor_split : Z;
  progress_callback : Z;
  progress_callback_user_data : Z;
  kv_overrides : Z;
  vocab_only : bool;
  use_mmap : bool;
  use_mlock : bool;
  check_tensors : bool;
  use_extra_bufts : bool;
  no_host : bool
}.
End ModelParams.

(** [struct llama_context_params] of [llama_min.h]. *)
Module ContextParams.
Record t : Type := Make {
  n_ctx : Z;
  n_batch : Z;
  n_ubatch : Z;
  n_seq_max : Z;
  n_threads : Z;
  n_threads_batch : Z;
  rope_scaling_type : Z;
  pooling_type : Z;
  attention_type : Z;
  flash_attn_type : Z;
  rope_freq_base : float;
  rope_freq_scale : float;
  yarn_ext_factor : float;
  yarn_attn_factor : float;
  yarn_beta_fast : float;
  yarn_beta_slow : float;
  yarn_orig_ctx : Z;
  defrag_thold : float;
  cb_eval : Z;
  cb_eval_user_data : Z;
  type_k : Z;
  type_v : Z;
  abort_callback : Z;
  abort_callback_data : Z;
  embeddings : bool;
  offload_kqv : bool;
  no_perf : bool;
  op_offload : bool;
  swa_full : bool;
  kv_unified : bool
}.
End ContextParams.

Definition LLAMA_POOLING_TYPE_UNSPECIFIED : Z := -1.
Definition LLAMA_ATTENTION_TYPE_UNSPECIFIED : Z := -1.

(** The loading and freeing part of the llama.cpp API of [llama_min.h];
    [backend] is the process-wide state of the engine. *)
Class Loader `{Engine} : Type := {
  backend : Type;
  llama_backend_init : backend -> backend;
  llama_backend_free : backend -> backend;
  llama_model_default_params : ModelParams.t;
  llama_context_default_params : ContextParams.t;
  llama_model_load_from_file :
    backend -> option (list Byte.byte) -> ModelParams.t ->
    option llama_model * backend;
  llama_model_free : backend -> llama_model -> backend;
  llama_init_from_model :
    backend -> llama_model -> ContextParams.t -> option context * backend;
  llama_free : backend -> context -> backend
}.

Section Handles.
Context `{E : Engine} `{Ld : !Loader}.

Definition rm_llama_backend_init (s : backend) : backend :=
  llama_backend_init s.

Definition rm_llama_backend_free (s : backend) : backend :=
  llama_backend_free s.

Definition rm_llama_model_load_from_file (s : backend)
    (path_model : option (list Byte.byte)) (n_gpu_layers : Z)
    (use_mmap use_mlock : bool) : option llama_model * backend :=
  let params := llama_model_default_params in
  let params :=
    ModelParams.Make
      (ModelParams.devices params) (ModelParams.tensor_buft_overrides params)
      n_gpu_layers
      (ModelParams.split_mode params) (ModelParams.main_gpu params)
      (ModelParams.tensor_split params)
      (ModelParams.progress_callback params)
      (ModelParams.progress_callback_user_data params)
      (ModelParams.kv_overrides params)
      (* Conservative defaults for safety. *)
      false use_mmap use_mlock false
      (ModelParams.use_extra_bufts params) (ModelParams.no_host params) in
  llama_model_load_from_file s path_model params.

Definition rm_llama_model_free (s : backend) (model : option llama_model) : backend :=
  match model with
  | None => s
  | Some m => llama_model_free s m
  end.

Definition rm_llama_context_init (s : backend) (model : option llama_model)
    (n_ctx n_batch n_ubatch n_threads n_threads_batch
     pooling_type attention_type : Z) (embeddings : bool)
  : option context * backend :=
  match model with
  | None => (None, s)
  | Some m =>
    let params := llama_context_default_params in
    let pooling :=
      if negb (pooling_type =? LLAMA_POOLING_TYPE_UNSPECIFIED)
      then pooling_type else ContextParams.pooling_type params in
    let attention :=
      if negb (attention_type =? LLAMA_ATTENTION_TYPE_UNSPECIFIED)
      then attention_type else ContextParams.attention_type params in
    let params :=
      ContextParams.Make
        n_ctx n_batch n_ubatch (ContextParams.n_seq_max params)
        n_threads n_threads_batch
        (ContextParams.rope_scaling_type params) pooling attention
        (ContextParams.flash_attn_type params)
        (ContextParams.rope_freq_base params) (ContextParams.rope_freq_scale params)
        (ContextParams.yarn_ext_factor params) (ContextParams.yarn_attn_factor params)
        (ContextParams.yarn_beta_fast params) (ContextParams.yarn_beta_slow params)
        (ContextParams.yarn_orig_ctx params) (ContextParams.defrag_thold params)
        (ContextParams.cb_eval params) (ContextParams.cb_eval_user_data params)
        (ContextParams.type_k params) (ContextParams.type_v params)
        (ContextParams.abort_callback params) (ContextParams.abort_callback_data params)
        embeddings
        (ContextParams.offload_kqv params) (ContextParams.no_perf params)
        (ContextParams.op_offload params) (ContextParams.swa_full params)
        (ContextParams.kv_unified params) in
    llama_init_from_model s m params
  end.

Definition rm_llama_free (s : backend) (ctx : option context) : backend :=
  match ctx with
  | None => s
  | Some c => llama_free s c
  end.

Definition rm_llama_model_n_embd (model : option llama_model) : Z :=
  match model with
  | None => 0
  | Some m => llama_model_n_embd m
  end.

End Handles.

(** ** Vocabulary for the arithmetic of the normalizer *)

(** What rounding a positive mantissa gives when it does not underflow to
    zero: a finite number of the sign [sx] with exponent at least [emin]
    and at least [lo], or the infinity of that sign. *)
Definition rounded_to (prec emax : Z) (sx : bool) (lo : Z) (x : spec_float) : Prop :=
  match x with
  | S754_finite s _ e => s = sx /\ emin prec emax <= e /\ lo <= e
  | S754_infinity s => s = sx
  | _ => False
  end.

(** A [float] that is a binary32 number. *)
Definition valid_f32 (x : float) : bool := valid_binary f32_prec f32_emax x.

Definition is_inf (x : spec_float) : bool :=
  match x with S754_infinity _ => true | _ => false end.

Definition f_sign (x : spec_float) : bool :=
  match x with
  | S754_zero s | S754_infinity s | S754_finite s _ _ => s
  | S754_nan => false
  end.

(** A [double] greater than zero: finite positive, not underflowed, or
    [+inf]. *)
Definition f64_positive (x : double) : bool :=
  match x with
  | S754_finite false _ e => emin f64_prec f64_emax <=? e
  | S754_infinity false => true
  | _ => false
  end.

(** [+0.0] or greater. *)
Definition f64_nonneg (x : double) : bool :=
  match x with
  | S754_zero false => true
  | _ => f64_positive x
  end.

(** The norm that [rm_l2_normalize] computes and the factor it scales by. *)
Definition l2_norm (src : list float) (n : Z) : double :=
  f64_sqrt (sum_squares src (Z.to_nat n)).

Definition l2_inv (src : list float) (n : Z) : float :=
  float_of_double (f64_div f64_one (l2_norm src n)).

(** ** The legacy binding

    [get_embeddings] and [get_token_embeddings] of
    [local-go-llama/binding.cpp], the path that predates the shim.  They
    call the engine through the same API, and the llama.cpp helper library
    for tokenizing and normalizing. *)

(** What the binding uses of the helper library and of the older API.
    [common_embd_normalize inp out n embd_norm] is the output buffer after
    the call; [llama_token_to_piece] gives its return value and the bytes
    it leaves in the buffer; [seed_of_time] is the conversion of a
    [time_t] to the type of the seed. *)
Class Common `{Engine} : Type := {
  common_tokenize : context -> list Byte.byte -> bool -> bool -> list llama_token;
  common_embd_normalize : list float -> list float -> Z -> Z -> list float;
  llama_token_to_piece :
    option llama_vocab -> llama_token -> Z -> Z -> bool -> Z * list Byte.byte;
  seed_of_time : Z -> Z
}.

(** The fields of [common_params] that the two functions touch. *)
Record common_params : Type := CommonParams {
  sampling_seed : Z;
  prompt : list Byte.byte
}.

Section Binding.
Context `{E : Engine} `{C : !Common}.

(** What a call leaves behind: the return value, the parameters, the
    context of the binding state, and the caller's buffer. *)
Record binding_outcome : Type := BindingOutcome {
  b_rc : Z;
  b_params : common_params;
  b_ctx : context;
  b_res : list float
}.

(** [now] is what [time(NULL)] returns. *)
Definition get_embeddings (now : Z) (params : common_params) (ctx : context)
    (model : llama_model) (res_embeddings : list float) : binding_outcome :=
  let params :=
    if sampling_seed params <=? 0
    then CommonParams (seed_of_time now) (prompt params)
    else params in
  (* tokenize the prompt *)
  let embd_inp := common_tokenize ctx (prompt params) true true in
  let decoded :=
    if (0 <? Z.of_nat (length embd_inp)) then
      let batch := llama_batch_get_one embd_inp (to_int32 (Z.of_nat (length embd_inp))) in
      let '(rc, ctx') := llama_decode ctx batch in
      (negb (rc =? 0), ctx')
    else (false, ctx) in
  let '(failed, ctx) := decoded in
  if failed then BindingOutcome 1 params ctx res_embeddings
  else
    let n_embd := llama_model_n_embd model in
    let embd := llama_get_embeddings_seq ctx 0 in
    let embd := match embd with
                | None => llama_get_embeddings ctx
                | Some _ => embd
                end in
    match embd with
    | None => BindingOutcome 1 params ctx res_embeddings
    | Some embd =>
      BindingOutcome 0 params ctx
        (common_embd_normalize embd res_embeddings n_embd 2)
    end.

(** The loop of [get_token_embeddings] over [tokens]: the prompt with the
    pieces appended, and whether a conversion failed. *)
Fixpoint append_pieces (vocab : option llama_vocab) (tokens : list llama_token)
    (prompt : list Byte.byte) : bool * list Byte.byte :=
  match tokens with
  | [] => (true, prompt)
  | t :: rest =>
    let '(n, buf) := llama_token_to_piece vocab t 128 0 true in
    if n <? 0 then (false, prompt)
    else append_pieces vocab rest (prompt ++ take (Z.to_nat n) buf)
  end.

(** [tokens] holds at least [tokenSize] elements. *)
Definition get_token_embeddings (now : Z) (params : common_params) (ctx : context)
    (model : llama_model) (tokens : list llama_token) (tokenSize : Z)
    (res_embeddings : list float) : binding_outcome :=
  let vocab := llama_model_get_vocab model in
  let '(ok, prompt') :=
    append_pieces vocab (take (Z.to_nat tokenSize) tokens) (prompt params) in
  let params := CommonParams (sampling_seed params) prompt' in
  if ok then get_embeddings now params ctx model res_embeddings
  else BindingOutcome 1 params ctx res_embeddings.

End Binding.

(** The pieces of the tokens that convert, up to the first that does not. *)
Fixpoint converted_pieces `{Engine} `{!Common} (vocab : option llama_vocab)
    (tokens : list llama_token) : list Byte.byte :=
  match tokens with
  | [] => []
  | t :: rest =>
    let '(n, buf) := llama_token_to_piece vocab t 128 0 true in
    if n <? 0 then []
    else take (Z.to_nat n) buf ++ converted_pieces vocab rest
  end.

Definition all_convert `{Engine} `{!Common} (vocab : option llama_vocab)
    (tokens : list llama_token) : bool :=
  forallb (fun t => negb (fst (llama_token_to_piece vocab t 128 0 true) <? 0)) tokens.

Module StubCommon.
Import Stub.

Definition piece (_ : option unit) (t : llama_token) (_ _ : Z) (_ : bool)
  : Z * list Byte.byte :=
  if t <? 0 then (-1, [])
  else (1, [default Byte.x00 (Byte.of_N (Z.to_N (t mod 256)))]).

#[export] Instance common : Common := {|
  common_tokenize := fun _ text add_special parse_special =>
    snd (tokenize tt text (strlen text) INT32_MAX add_special parse_special);
  common_embd_normalize := fun inp out n embd_norm =>
    if embd_norm =? 2 then rm_l2_normalize out inp n else rm_copy_f32 out inp n;
  llama_token_to_piece := piece;
  seed_of_time := fun t => t mod 2 ^ 32
|}.

End StubCommon.

(** A number that is not NaN and has the sign [sx]. *)
Definition has_sign (sx : bool) (x : spec_float) : Prop :=
  is_nan x = false /\ f_sign x = sx.

(** ** The pipeline after the reset *)

(** The capacity of the first token buffer, lines 155 to 159. *)
Definition first_capacity (text : list Byte.byte) : Z :=
  let n_tokens_max := to_int32 (to_size_t (strlen text + 8)) in
  if n_tokens_max <? 16 then 16 else n_tokens_max.

(** What lines 161 to 180 come to: the return code when an allocation
    fails (-4) or the final count is zero or less (-5), or else the count
    and the tokens handed to the forward pass. *)
Definition tokens_for `{Engine} `{Libc} (h : heap) (vocab : llama_vocab)
    (text : list Byte.byte) (add_special parse_special : bool)
  : Z + Z * list llama_token :=
  let cap := first_capacity text in
  match malloc h (to_size_t (to_size_t cap * sizeof_llama_token)) with
  | (None, _) => inl (-4)
  | (Some tokens, h1) =>
    let r := llama_tokenize vocab text (to_int32 (strlen text)) cap
                            add_special parse_special in
    let final :=
      if fst r <? 0 then
        let needed := to_int32 (- fst r) in
        match malloc (free h1 tokens)
                     (to_size_t (to_size_t needed * sizeof_llama_token)) with
        | (None, _) => inl (-4)
        | (Some _, _) =>
          inr (llama_tokenize vocab text (to_int32 (strlen text)) needed
                              add_special parse_special)
        end
      else inr r in
    match final with
    | inr (n_tokens, buf) => if n_tokens <=? 0 then inl (-5) else inr (n_tokens, buf)
    | inl code => inl code
    end
  end.

(** What lines 187 to 206 make of the result of the forward pass: the
    return code and the output buffer. *)
Definition result_after_decode `{Engine} (out : list float) (n_embd normalize : Z)
    (decoded : Z * context) : Z * list float :=
  if negb (fst decoded =? 0) then (fst decoded, out)
  else
    match retrieved_embedding (snd decoded) with
    | None => (EmbeddingsUnavailable, out)
    | Some embd => (0, normalizer normalize out embd n_embd)
    end.

(** On the small engine: two contexts that a forward pass cannot tell
    apart.  They may differ in the embedding left by an earlier forward
    pass and in the thread settings. *)
Module StubContract.
Import Stub.

Definition alike (c1 c2 : context) : Prop :=
  ctx_memory c1 = ctx_memory c2 /\
  r_n_embd (ctx_rest c1) = r_n_embd (ctx_rest c2) /\
  r_n_ctx (ctx_rest c1) = r_n_ctx (ctx_rest c2) /\
  r_pooled (ctx_rest c1) = r_pooled (ctx_rest c2) /\
  r_embeddings (ctx_rest c1) = r_embeddings (ctx_rest c2).

(** One letter, for an earlier call on another text. *)
Definition other_text : list Byte.byte := [Byte.x61].

End StubContract.

(** ** C integer conversions: facts *)

Lemma to_int32_id z : INT32_MIN <= z <= INT32_MAX -> to_int32 z = z.
Proof.
  unfold to_int32, INT32_MIN, INT32_MAX. intros H.
  rewrite Z.mod_small by lia. lia.
Qed.

Lemma to_size_t_id z : 0 <= z < 2 ^ 64 -> to_size_t z = z.
Proof. unfold to_size_t. intros H. now rewrite Z.mod_small. Qed.

Lemma strlen_nonneg (text : list Byte.byte) : 0 <= strlen text.
Proof.
  induction text as [|b rest IH]; [reflexivity|].
  destruct b; cbn [strlen]; lia.
Qed.

Lemma strlen_replicate (n : nat) (b : Byte.byte) :
  b <> Byte.x00 -> strlen (replicate n b) = Z.of_nat n.
Proof.
  intros Hb. induction n as [|n IH]; [reflexivity|].
  cbn [replicate]. destruct b; try contradiction; cbn [strlen]; lia.
Qed.

Lemma capacity_no_wrap (len : Z) :
  0 <= len -> len + 8 <= INT32_MAX ->
  (if to_int32 (to_size_t (len + 8)) <? 16 then 16
   else to_int32 (to_size_t (len + 8))) = initial_capacity len.
Proof.
  intros H0 H1. unfold INT32_MAX in H1.
  rewrite to_size_t_id by lia.
  rewrite to_int32_id by (unfold INT32_MIN, INT32_MAX; lia).
  unfold initial_capacity. destruct (Z.ltb_spec (len + 8) 16); lia.
Qed.

Lemma initial_capacity_range (len : Z) :
  0 <= len -> len + 8 <= INT32_MAX -> 16 <= initial_capacity len <= INT32_MAX.
Proof. unfold initial_capacity, INT32_MAX. lia. Qed.

Lemma token_bytes_no_wrap (n : Z) :
  0 <= n <= INT32_MAX ->
  to_size_t (to_size_t n * sizeof_llama_token) = 4 * n.
Proof.
  unfold INT32_MAX, sizeof_llama_token. intros H.
  rewrite (to_size_t_id n) by lia. rewrite to_size_t_id by lia. lia.
Qed.

Lemma needed_no_wrap (n : Z) :
  INT32_MIN < n -> n < 0 -> to_int32 (- n) = Z.abs n.
Proof.
  unfold INT32_MIN. intros H0 H1.
  rewrite to_int32_id by (unfold INT32_MIN, INT32_MAX; lia). lia.
Qed.

(** ** The normalizer *)

Section Normalizer.
Implicit Types (dst src : list float) (inv : float).

Lemma sum_squares_S src (n : nat) :
  sum_squares src (S n) =
  f64_add (sum_squares src n)
          (f64_mul (double_of_float (src !!! n)) (double_of_float (src !!! n))).
Proof. unfold sum_squares. now rewrite seq_S, foldl_app. Qed.

Lemma scale_loop_S dst src inv (n : nat) :
  scale_loop dst src inv (S n) =
  <[ n := f32_mul (src !!! n) inv ]> (scale_loop dst src inv n).
Proof. unfold scale_loop. now rewrite seq_S, foldl_app. Qed.

Lemma length_scale_loop dst src inv (n : nat) :
  length (scale_loop dst src inv n) = length dst.
Proof.
  induction n as [|n IH]; [reflexivity|].
  now rewrite scale_loop_S, length_insert.
Qed.

Lemma scale_loop_lookup_lt dst src inv (n i : nat) :
  (n <= length dst)%nat -> (i < n)%nat ->
  scale_loop dst src inv n !! i = Some (f32_mul (src !!! i) inv).
Proof.
  induction n as [|n IH]; intros Hn Hi; [lia|].
  rewrite scale_loop_S.
  destruct (decide (i = n)) as [->|Hne].
  - apply list_lookup_insert_eq. rewrite length_scale_loop. lia.
  - rewrite list_lookup_insert_ne by congruence. apply IH; lia.
Qed.

Lemma scale_loop_lookup_ge dst src inv (n i : nat) :
  (n <= i)%nat -> scale_loop dst src inv n !! i = dst !! i.
Proof.
  induction n as [|n IH]; intros Hi; [reflexivity|].
  rewrite scale_loop_S, list_lookup_insert_ne by lia. apply IH. lia.
Qed.

Lemma lookup_total_zero src (i : nat) :
  Forall (fun x => is_zero x = true) src -> is_zero (src !!! i) = true.
Proof.
  intros H. revert i.
  induction H as [|x l Hx _ IH]; intros [|i]; simpl; auto.
Qed.

Lemma sum_squares_zero src (n : nat) :
  Forall (fun x => is_zero x = true) src ->
  sum_squares src n = f64_zero.
Proof.
  intros H. induction n as [|n IH]; [reflexivity|].
  rewrite sum_squares_S, IH.
  pose proof (lookup_total_zero src n H) as Hz.
  destruct (src !!! n) as [[]| | |]; try discriminate; reflexivity.
Qed.

Lemma norm_zero src (n : nat) :
  Forall (fun x => is_zero x = true) src ->
  f64_leb (f64_sqrt (sum_squares src n)) f64_zero = true.
Proof. intros H. now rewrite sum_squares_zero. Qed.

Lemma rm_copy_f32_pos dst src n :
  0 < n -> rm_copy_f32 dst src n = take (Z.to_nat n) src ++ drop (Z.to_nat n) dst.
Proof.
  intros H. unfold rm_copy_f32, memcpy_f32.
  destruct (Z.leb_spec n 0); [lia|reflexivity].
Qed.

End Normalizer.


(** C7: under L2 mode, for an input of length [n]: when the square root of
    the double-precision sum of squares is zero or negative the output is a
    verbatim copy of the input, which is what happens for an all-zero input
    (the output is then all zero, nothing is divided and no NaN appears);
    when [n <= 0] nothing is written; otherwise every element is the input
    element times one reciprocal [1/norm], computed once. *)
Theorem rm_l2_normalize_cases (dst src : list float) (n : Z) :
  n <= Z.of_nat (length dst) -> n <= Z.of_nat (length src) ->
  let norm := f64_sqrt (sum_squares src (Z.to_nat n)) in
  let inv := float_of_double (f64_div f64_one norm) in
  let r := rm_l2_normalize dst src n in
  (n <= 0 -> r = dst) /\
  (0 < n -> f64_leb norm f64_zero = true ->
     r = take (Z.to_nat n) src ++ drop (Z.to_nat n) dst) /\
  (0 < n -> length src = Z.to_nat n ->
     Forall (fun x => is_zero x = true) src ->
     f64_leb norm f64_zero = true /\
     take (Z.to_nat n) r = src /\
     Forall (fun x => is_zero x = true /\ is_nan x = false) (take (Z.to_nat n) r)) /\
  (0 < n -> f64_leb norm f64_zero = false ->
     length r = length dst /\
     (forall i : nat, (i < Z.to_nat n)%nat ->
        r !! i = Some (f32_mul (src !!! i) inv)) /\
     (forall i : nat, (Z.to_nat n <= i)%nat -> r !! i = dst !! i)).
Proof.
  intros Hlen Hsrclen norm inv r. subst r. unfold rm_l2_normalize.
  fold norm. fold inv.
  split; [|split; [|split]].
  - intros Hn. destruct (Z.leb_spec n 0); [reflexivity|lia].
  - intros Hn Hz. destruct (Z.leb_spec n 0); [lia|].
    rewrite Hz. now apply rm_copy_f32_pos.
  - intros Hn Hsrc Hall. destruct (Z.leb_spec n 0); [lia|].
    assert (Hz : f64_leb norm f64_zero = true) by (subst norm; now apply norm_zero).
    rewrite Hz, rm_copy_f32_pos by assumption.
    rewrite take_app_le by (rewrite length_take; lia).
    rewrite take_take, Nat.min_id, take_ge by lia.
    split; [reflexivity|split; [reflexivity|]].
    eapply Forall_impl; [eassumption|].
    intros [] Hx; try discriminate; split; reflexivity.
  - intros Hn Hnz. destruct (Z.leb_spec n 0); [lia|]. rewrite Hnz.
    split; [apply length_scale_loop|split].
    + intros i Hi. apply scale_loop_lookup_lt; lia.
    + intros i Hi. now apply scale_loop_lookup_ge.
Qed.

Lemma rm_l2_normalize_cases_witness :
  let dst := Stub.zeros 5 in
  let src := [Stub.f32_of_Z 3; Stub.f32_of_Z 4; S754_zero false; S754_zero true] in
  let zero := [S754_zero true; S754_zero false] in
  (rm_l2_normalize dst src 4 !! 0%nat = Some (S754_finite false 10066330 (-24)) /\
   rm_l2_normalize dst src 4 !! 1%nat = Some (S754_finite false 13421773 (-24)) /\
   rm_l2_normalize dst src 4 !! 4%nat = Some (S754_zero false)) /\
  take 2 (rm_l2_normalize dst zero 2) = zero.
Proof.
  intros dst src zero.
  assert (Hdst : 4 <= Z.of_nat (length dst)) by (vm_compute; discriminate).
  assert (Hsrc : 4 <= Z.of_nat (length src)) by (vm_compute; discriminate).
  assert (Hdst2 : 2 <= Z.of_nat (length dst)) by (vm_compute; discriminate).
  assert (Hzero : 2 <= Z.of_nat (length zero)) by (vm_compute; discriminate).
  split.
  - destruct (rm_l2_normalize_cases dst src 4 Hdst Hsrc) as (_ & _ & _ & Hscale).
    destruct (Hscale eq_refl eq_refl) as (_ & Hlt & Hge).
    split; [|split].
    + etrans; [apply (Hlt 0%nat); vm_compute; lia|reflexivity].
    + etrans; [apply (Hlt 1%nat); vm_compute; lia|reflexivity].
    + etrans; [apply (Hge 4%nat); vm_compute; lia|reflexivity].
  - destruct (rm_l2_normalize_cases dst zero 2 Hdst2 Hzero) as (_ & _ & Hz & _).
    apply Hz; [reflexivity|reflexivity|].
    repeat constructor.
Defined.

(** ** The extraction call *)

Ltac shim_simpl :=
  cbv beta iota zeta delta
    [w_ctx w_heap w_out w_trace rc ctx_after out_after heap_after trace
     ctx_memory ctx_rest fst snd] in *;
  cbn [app] in *.

Ltac shim_unfold :=
  unfold rm_llama_embed_text, embed_text_body,
    call_model_n_embd, call_get_memory, call_memory_clear, call_set_n_threads,
    call_model_get_vocab, call_malloc, call_free, call_tokenize, call_decode,
    call_get_embeddings_seq, call_get_embeddings, llama_get_memory,
    get_ctx, put_ctx, get_out, put_out, log, exit, return_code,
    mbind, M_bind, mret, M_ret in *;
  shim_simpl.

Ltac shim_step :=
  match goal with
  | |- context [match ?x with _ => _ end] =>
      lazymatch x with
      | context [match _ with _ => _ end] => fail
      | _ => destruct x eqn:?
      end
  end;
  shim_simpl.

Ltac shim_cases := repeat shim_step.

(** Rewriting the recorded equations into one hypothesis, and merging two
    equations on the same term. *)
Ltac rewrite_eqs_in H :=
  repeat match goal with
  | E : ?x = _ |- _ =>
      tryif constr_eq E H then fail else
      lazymatch x with
      | context [match _ with _ => _ end] => fail
      | _ => progress (rewrite E in H)
      end
  end.

Ltac merge_eqs :=
  repeat match goal with
  | H1 : ?x = _, H2 : ?x = _ |- _ =>
      tryif constr_eq H1 H2 then fail else (rewrite H1 in H2; simplify_eq)
  end.

Section ShimFacts.
Context `{E : Engine} `{L : Libc}.
Implicit Types (h : heap) (c : context) (model : llama_model)
  (text : list Byte.byte) (out : list float).

(** The return code, the output buffer and the context of a call that
    passes the argument checks, in terms of what the engine and the
    allocator return; the context the call starts from matters only
    through the forward pass on the reset and configured context. *)
Lemma result_from_configured h c model text (add_special parse_special : bool) out
    (out_len n_threads n_threads_batch normalize : Z) :
  0 < llama_model_n_embd model <= out_len ->
  let o := rm_llama_embed_text h (Some c) (Some model) (Some text)
             add_special parse_special (Some out)
             out_len n_threads n_threads_batch normalize in
  match llama_model_get_vocab model with
  | None => rc o = VocabularyUnavailable /\ out_after o = Some out
  | Some vocab =>
    match tokens_for h vocab text add_special parse_special with
    | inl code => rc o = code /\ out_after o = Some out
    | inr (n, buf) =>
      let decoded := llama_decode (configured_context c n_threads n_threads_batch)
                                  (llama_batch_get_one buf n) in
      let res := result_after_decode out (llama_model_n_embd model) normalize
                   decoded in
      rc o = fst res /\ out_after o = Some (snd res) /\
      ctx_after o = Some (snd decoded)
    end
  end.
Proof.
  intros [Hpos Hlen] o. subst o. destruct c as [mem rest].
  destruct (llama_model_get_vocab model) as [vocab|] eqn:Hvocab.
  - remember (tokens_for h vocab text add_special parse_special) as tf eqn:Htf.
    unfold result_after_decode, retrieved_embedding, normalizer,
      configured_context, reset_context.
    shim_unfold.
    destruct (Z.leb_spec (llama_model_n_embd model) 0); [lia|].
    destruct (Z.ltb_spec out_len (llama_model_n_embd model)); [lia|].
    cbn [orb]. rewrite Hvocab.
    unfold tokens_for, first_capacity in Htf.
    destruct mem; shim_cases.
    all: cbv zeta in Htf; rewrite_eqs_in Htf; cbv beta iota delta [fst snd] in Htf;
         rewrite_eqs_in Htf; cbv beta iota delta [fst snd] in Htf;
         rewrite_eqs_in Htf; cbv beta iota delta [fst snd] in Htf;
         rewrite_eqs_in Htf; cbv beta iota delta [fst snd] in Htf.
    all: try discriminate Htf; simplify_eq.
    all: merge_eqs.
    all: try (exfalso; congruence).
    all: cbv [id]; repeat split; reflexivity.
  - shim_unfold.
    destruct (Z.leb_spec (llama_model_n_embd model) 0); [lia|].
    destruct (Z.ltb_spec out_len (llama_model_n_embd model)); [lia|].
    cbn [orb]. rewrite Hvocab.
    destruct mem; shim_cases; split; reflexivity.
Qed.

(** C6: with non-null arguments and an output buffer shorter than the
    model's embedding dimension the call returns -2 (OutputBufferTooSmall)
    and the only thing asked of the engine is the dimension: no memory
    reset, no thread setting, no vocabulary fetch, no tokenization, no
    forward pass; context, heap and output buffer are as before. *)
Theorem output_buffer_guard h c model text (add_special parse_special : bool)
    out (out_len n_threads n_threads_batch normalize : Z) :
  out_len < llama_model_n_embd model ->
  let o := rm_llama_embed_text h (Some c) (Some model) (Some text)
             add_special parse_special (Some out)
             out_len n_threads n_threads_batch normalize in
  o = Outcome OutputBufferTooSmall (Some c) (Some out) h
        [EvModelNEmbd (llama_model_n_embd model)] /\
  Forall (fun e => is_memory_clear e = false /\ is_set_n_threads e = false /\
                   is_get_vocab e = false /\ is_tokenize e = false /\
                   is_malloc e = false /\ is_decode e = false) (trace o).
Proof.
  intros Hshort o. subst o. shim_unfold.
  destruct (Z.ltb_spec out_len (llama_model_n_embd model)); [|lia].
  rewrite orb_true_r. cbn. split; [reflexivity|].
  repeat constructor.
Qed.

(** C10: when the model reports an embedding dimension of zero or less the
    call returns -2, the code of OutputBufferTooSmall, whatever the size of
    the output buffer, and nothing but the dimension is asked of the
    engine. *)
Theorem degenerate_dimension_guard h c model text (add_special parse_special : bool)
    out (out_len n_threads n_threads_batch normalize : Z) :
  llama_model_n_embd model <= 0 ->
  rm_llama_embed_text h (Some c) (Some model) (Some text)
    add_special parse_special (Some out)
    out_len n_threads n_threads_batch normalize
  = Outcome OutputBufferTooSmall (Some c) (Some out) h
      [EvModelNEmbd (llama_model_n_embd model)].
Proof.
  intros Hdeg. shim_unfold.
  destruct (Z.leb_spec (llama_model_n_embd model) 0); [|lia].
  reflexivity.
Qed.

(** C4: whenever the call returns a non-zero code, on whichever path, the
    caller's output buffer is what it was before the call. *)
Theorem error_leaves_output_unwritten h (ctx : option context)
    (model : option llama_model) (text : option (list Byte.byte))
    (add_special parse_special : bool) (out : option (list float))
    (out_len n_threads n_threads_batch normalize : Z) :
  let o := rm_llama_embed_text h ctx model text add_special parse_special out
             out_len n_threads n_threads_batch normalize in
  rc o <> 0 -> out_after o = out.
Proof.
  intros o. subst o. shim_unfold.
  destruct ctx, model, text, out; try reflexivity.
  shim_cases; intros Hrc; try reflexivity; try congruence; simplify_eq; try reflexivity.
Qed.

(** C9: a normalization mode other than 2, whether 0 or a value without a
    meaning such as 1 or 3, is not rejected.  The call behaves in every
    respect as with mode 0; whenever it returns 0 the output buffer holds a
    verbatim copy of the retrieved embedding; and it does return 0, with
    that copy in the buffer, whenever the arguments pass the checks, the
    model has a vocabulary, the text yields tokens, the forward pass on the
    reset and configured context returns 0 and an embedding can be
    retrieved. *)
Theorem unrecognized_mode_copies h (ctx : option context)
    (model : option llama_model) (text : option (list Byte.byte))
    (add_special parse_special : bool) (out : option (list float))
    (out_len n_threads n_threads_batch normalize : Z) :
  normalize <> 2 ->
  let o := rm_llama_embed_text h ctx model text add_special parse_special out
             out_len n_threads n_threads_batch normalize in
  o = rm_llama_embed_text h ctx model text add_special parse_special out
        out_len n_threads n_threads_batch 0 /\
  (rc o = 0 ->
   exists model0 out0 c' embd,
     model = Some model0 /\ out = Some out0 /\
     ctx_after o = Some c' /\ retrieved_embedding c' = Some embd /\
     let n := Z.to_nat (llama_model_n_embd model0) in
     out_after o = Some (take n embd ++ drop n out0)) /\
  (forall c model0 text0 out0 vocab n_tokens buf c' embd,
     ctx = Some c -> model = Some model0 -> text = Some text0 ->
     out = Some out0 ->
     0 < llama_model_n_embd model0 <= out_len ->
     llama_model_get_vocab model0 = Some vocab ->
     tokens_for h vocab text0 add_special parse_special = inr (n_tokens, buf) ->
     llama_decode (configured_context c n_threads n_threads_batch)
                  (llama_batch_get_one buf n_tokens) = (0, c') ->
     retrieved_embedding c' = Some embd ->
     let n := Z.to_nat (llama_model_n_embd model0) in
     rc o = 0 /\ ctx_after o = Some c' /\
     out_after o = Some (take n embd ++ drop n out0)).
Proof.
  intros Hmode o. subst o. split; [|split].
  - unfold rm_llama_embed_text, embed_text_body.
    destruct (Z.eqb_spec normalize 2); [contradiction|]. reflexivity.
  - unfold retrieved_embedding. shim_unfold.
    destruct ctx, model, text, out; try discriminate.
    destruct (Z.eqb_spec normalize 2); [contradiction|].
    shim_cases; intros Hrc; try discriminate; simplify_eq;
      try match goal with H : (?z =? 0) = false |- _ =>
            apply Z.eqb_neq in H; cbn in H; congruence end.
    all: do 4 eexists; repeat (split; [reflexivity|]).
    all: repeat match goal with H : _ = _ |- _ => rewrite H end.
    all: repeat (split; [reflexivity|]).
    all: rewrite rm_copy_f32_pos; [reflexivity|].
    all: match goal with H : (_ <=? 0) || _ = false |- _ =>
           apply orb_false_iff in H as [H _];
           apply Z.leb_gt in H; exact H end.
  - intros c model0 text0 out0 vocab n_tokens buf c' embd
      -> -> -> -> Hrange Hvocab Htokens Hdecode Hembd n.
    pose proof (result_from_configured h c model0 text0 add_special
                  parse_special out0 out_len n_threads n_threads_batch
                  normalize Hrange) as H.
    cbv zeta in H. rewrite Hvocab, Htokens, Hdecode in H.
    unfold result_after_decode, normalizer in H. cbn [fst snd] in H.
    rewrite Hembd in H.
    destruct (Z.eqb_spec normalize 2); [contradiction|].
    change (negb (0 =? 0)) with false in H. cbv iota in H. cbn [fst snd] in H.
    rewrite rm_copy_f32_pos in H by lia.
    destruct H as (Hrc & Hout & Hctx). repeat split; assumption.
Qed.

(** C1: two calls with the same non-null arguments and an output buffer
    at least as large as the embedding dimension, started from two states
    [s1] and [s2] of the context -- such as the states before and after an
    earlier call -- return the same code and leave the same output vector,
    whenever the two states are alike once their memories are cleared.
    What alike means is the engine's to say: it is any relation that
    setting the thread counts preserves and under which the forward pass
    returns the same code and, when that code is 0, makes the same
    embedding retrievable. *)
Theorem extraction_independent_of_prior_memory
    (alike : context -> context -> Prop) h (s1 s2 : context) model text
    (add_special parse_special : bool) out
    (out_len n_threads n_threads_batch normalize : Z) :
  (forall c1 c2, alike c1 c2 ->
     alike (llama_set_n_threads c1 n_threads n_threads_batch)
           (llama_set_n_threads c2 n_threads n_threads_batch)) ->
  (forall c1 c2 batch, alike c1 c2 ->
     fst (llama_decode c1 batch) = fst (llama_decode c2 batch) /\
     (fst (llama_decode c1 batch) = 0 ->
      retrieved_embedding (snd (llama_decode c1 batch)) =
      retrieved_embedding (snd (llama_decode c2 batch)))) ->
  alike (reset_context s1) (reset_context s2) ->
  llama_model_n_embd model <= out_len ->
  let o1 := rm_llama_embed_text h (Some s1) (Some model) (Some text)
              add_special parse_special (Some out)
              out_len n_threads n_threads_batch normalize in
  let o2 := rm_llama_embed_text h (Some s2) (Some model) (Some text)
              add_special parse_special (Some out)
              out_len n_threads n_threads_batch normalize in
  rc o1 = rc o2 /\ out_after o1 = out_after o2.
Proof.
  intros Hthreads Hdecode Halike Hlen o1 o2. subst o1 o2.
  destruct (Z.leb_spec (llama_model_n_embd model) 0) as [Hdeg|Hpos].
  - unfold rm_llama_embed_text, embed_text_body, call_model_n_embd,
      log, exit, mbind, M_bind, mret, M_ret.
    cbn [w_ctx w_heap w_out w_trace].
    destruct (Z.leb_spec (llama_model_n_embd model) 0); [|lia].
    cbn. split; reflexivity.
  - pose proof (result_from_configured h s1 model text add_special
                  parse_special out out_len n_threads n_threads_batch
                  normalize (conj Hpos Hlen)) as H1.
    pose proof (result_from_configured h s2 model text add_special
                  parse_special out out_len n_threads n_threads_batch
                  normalize (conj Hpos Hlen)) as H2.
    cbv zeta in H1, H2.
    destruct (llama_model_get_vocab model) as [vocab|].
    + destruct (tokens_for h vocab text add_special parse_special)
        as [code|[n_tokens buf]].
      * destruct H1 as [-> ->], H2 as [-> ->]. split; reflexivity.
      * assert (alike (configured_context s1 n_threads n_threads_batch)
                      (configured_context s2 n_threads n_threads_batch))
          as Hconf.
        { unfold configured_context.
          destruct ((n_threads >? 0) || (n_threads_batch >? 0)); auto. }
        destruct (Hdecode _ _ (llama_batch_get_one buf n_tokens) Hconf)
          as [Hcode Hembd].
        assert (forall d1 d2 : Z * context,
                  fst d1 = fst d2 ->
                  (fst d1 = 0 ->
                   retrieved_embedding (snd d1) = retrieved_embedding (snd d2)) ->
                  result_after_decode out (llama_model_n_embd model) normalize d1 =
                  result_after_decode out (llama_model_n_embd model) normalize d2)
          as Hres.
        { intros [code1 c1'] [code2 c2']. cbn [fst snd]. intros <- Hsame.
          unfold result_after_decode. cbn [fst snd].
          destruct (Z.eqb_spec code1 0) as [Hzero|Hnonzero]; cbn [negb].
          - rewrite (Hsame Hzero). reflexivity.
          - reflexivity. }
        pose proof (Hres _ _ Hcode Hembd) as Hr.
        destruct H1 as (-> & -> & _), H2 as (-> & -> & _).
        split.
        -- exact (f_equal fst Hr).
        -- exact (f_equal (fun x => Some (snd x)) Hr).
    + destruct H1 as [-> ->], H2 as [-> ->]. split; reflexivity.
Qed.

(** C8: once the forward pass has returned 0, the per-sequence embedding of
    sequence 0 is the result whenever the context has one, and the raw
    accessor is then not called; the raw accessor is called only when there
    is none, and gives the result; when it has nothing either the call
    returns -6 (EmbeddingsUnavailable) and writes nothing. *)
Theorem embedding_retrieval_order h c model text (add_special parse_special : bool)
    out (out_len n_threads n_threads_batch normalize : Z) :
  let o := rm_llama_embed_text h (Some c) (Some model) (Some text)
             add_special parse_special (Some out)
             out_len n_threads n_threads_batch normalize in
  (exists n, EvDecode n 0 ∈ trace o) ->
  exists c', ctx_after o = Some c' /\
    match llama_get_embeddings_seq c' 0 with
    | Some e =>
        EvGetEmbeddingsSeq 0 (Some e) ∈ trace o /\
        existsb is_get_embeddings (trace o) = false /\
        rc o = 0 /\
        out_after o = Some (normalizer normalize out e (llama_model_n_embd model))
    | None =>
        EvGetEmbeddingsSeq 0 None ∈ trace o /\
        EvGetEmbeddings (llama_get_embeddings c') ∈ trace o /\
        match llama_get_embeddings c' with
        | Some e =>
            rc o = 0 /\
            out_after o = Some (normalizer normalize out e (llama_model_n_embd model))
        | None => rc o = EmbeddingsUnavailable /\ out_after o = Some out
        end
    end.
Proof.
  intros o [n Hdec]. subst o. unfold normalizer. revert Hdec. shim_unfold.
  shim_cases; intros Hdec;
    repeat match goal with
    | H : _ ∈ [] |- _ => apply elem_of_nil in H; contradiction
    | H : _ ∈ _ :: _ |- _ => apply elem_of_cons in H as [H|H]; [try discriminate|]
    end;
    simplify_eq;
    try match goal with H : negb (0 =? 0) = true |- _ => discriminate H end.
  all: eexists; split; [reflexivity|].
  all: repeat match goal with
       | H : llama_get_embeddings_seq _ _ = _ |- _ => rewrite H
       | H : llama_get_embeddings _ = _ |- _ => rewrite H
       end.
  all: repeat split; try reflexivity.
  all: try (rewrite !elem_of_cons; auto 20).
Qed.

(** C2, as the code has it: in a call that passes the argument checks the
    first thing after the dimension query is the fetch of the context's
    memory handle; when the handle is non-null the memory is cleared, data
    included, before anything else (thread setting, vocabulary, allocation,
    tokenization, forward pass), and it is cleared once; when it is null no
    clear is issued in the call. *)
Theorem memory_reset_first h c model text (add_special parse_special : bool)
    out (out_len n_threads n_threads_batch normalize : Z) :
  0 < llama_model_n_embd model <= out_len ->
  let o := rm_llama_embed_text h (Some c) (Some model) (Some text)
             add_special parse_special (Some out)
             out_len n_threads n_threads_batch normalize in
  exists tl,
    trace o =
      EvModelNEmbd (llama_model_n_embd model) ::
      EvGetMemory (nonnull (ctx_memory c)) ::
      (if nonnull (ctx_memory c) then [EvMemoryClear true] else []) ++ tl /\
    existsb is_memory_clear tl = false.
Proof.
  intros [Hpos Hlen] o. subst o. destruct c as [mem rest].
  shim_unfold. unfold llama_get_memory. cbn [ctx_memory ctx_rest].
  destruct (Z.leb_spec (llama_model_n_embd model) 0); [lia|].
  destruct (Z.ltb_spec out_len (llama_model_n_embd model)); [lia|].
  cbn [orb].
  destruct mem; cbn [nonnull app];
    shim_cases; eexists; (split; [reflexivity|reflexivity]).
Qed.

(** C3, as the code has it: in a call that passes the argument checks, when
    at least one of the two thread counts is positive the engine's thread
    setter is called once, right after the reset and so before the forward
    pass, with both requested values as they are, the non-positive one
    included; when neither is positive the setter is not called.  A call
    that stops at the vocabulary shows the context so configured. *)
Theorem thread_settings_passed_together h c model text
    (add_special parse_special : bool) out
    (out_len n_threads n_threads_batch normalize : Z) :
  0 < llama_model_n_embd model <= out_len ->
  let o := rm_llama_embed_text h (Some c) (Some model) (Some text)
             add_special parse_special (Some out)
             out_len n_threads n_threads_batch normalize in
  (0 < n_threads \/ 0 < n_threads_batch ->
     (exists tl,
        trace o = reset_events model c ++
                  EvSetNThreads n_threads n_threads_batch :: tl /\
        existsb is_set_n_threads tl = false) /\
     (llama_model_get_vocab model = None ->
        ctx_after o =
          Some (llama_set_n_threads (reset_context c) n_threads n_threads_batch))) /\
  (n_threads <= 0 /\ n_threads_batch <= 0 ->
     existsb is_set_n_threads (trace o) = false /\
     (llama_model_get_vocab model = None ->
        ctx_after o = Some (reset_context c))).
Proof.
  intros [Hpos Hlen] o. subst o. destruct c as [mem rest].
  unfold reset_events, reset_context. shim_unfold. unfold llama_get_memory.
  cbn [ctx_memory ctx_rest].
  destruct (Z.leb_spec (llama_model_n_embd model) 0); [lia|].
  destruct (Z.ltb_spec out_len (llama_model_n_embd model)); [lia|].
  cbn [orb]. split.
  - intros Hsome.
    assert (Hc : (n_threads >? 0) || (n_threads_batch >? 0) = true).
    { apply orb_true_iff. rewrite !Z.gtb_ltb, !Z.ltb_lt. exact Hsome. }
    rewrite Hc. split.
    + destruct mem; cbn [nonnull app];
        shim_cases; eexists; (split; [reflexivity|reflexivity]).
    + intros Hv. rewrite Hv. destruct mem; reflexivity.
  - intros [Hn Hb].
    assert (Hc : (n_threads >? 0) || (n_threads_batch >? 0) = false).
    { apply orb_false_iff. rewrite !Z.gtb_ltb, !Z.ltb_ge. lia. }
    rewrite Hc. split.
    + destruct mem; shim_cases; reflexivity.
    + intros Hv. rewrite Hv. destruct mem; reflexivity.
Qed.

(** C5, as the code has it: for a text whose length plus 8 fits [int32_t]
    and a first tokenizer return other than [INT32_MIN], in a call that gets
    as far as the vocabulary, the allocations and tokenizer calls are those
    of the protocol: a buffer of [max(len + 8, 16)] tokens and a first
    tokenizer call with that capacity; on a negative return a buffer of
    exactly its absolute value and one more tokenizer call, never a third;
    -5 when the final count is zero or negative, -4 when either allocation
    fails. *)
Theorem token_buffer_protocol h c model vocab text
    (add_special parse_special : bool) out
    (out_len n_threads n_threads_batch normalize : Z) :
  0 < llama_model_n_embd model <= out_len ->
  llama_model_get_vocab model = Some vocab ->
  strlen text + 8 <= INT32_MAX ->
  INT32_MIN < fst (llama_tokenize vocab text (strlen text)
                     (initial_capacity (strlen text))
                     add_special parse_special) ->
  let o := rm_llama_embed_text h (Some c) (Some model) (Some text)
             add_special parse_special (Some out)
             out_len n_threads n_threads_batch normalize in
  exists verdict,
    token_protocol (strlen text) (token_events (trace o)) verdict /\
    forall code, verdict = Some code -> rc o = code.
Proof.
  intros [Hpos Hlen] Hvocab Htext Hmin o. subst o.
  pose proof (strlen_nonneg text) as H0.
  pose proof (initial_capacity_range _ H0 Htext) as Hcap.
  destruct (llama_tokenize vocab text (strlen text)
              (initial_capacity (strlen text)) add_special parse_special)
    as [n1 buf1] eqn:Htok1.
  cbn [fst] in Hmin.
  destruct c as [mem rest]. unfold token_events. shim_unfold.
  destruct (Z.leb_spec (llama_model_n_embd model) 0); [lia|].
  destruct (Z.ltb_spec out_len (llama_model_n_embd model)); [lia|].
  cbn [orb]. rewrite Hvocab.
  rewrite (capacity_no_wrap (strlen text)) by assumption.
  rewrite (to_int32_id (strlen text)) by (unfold INT32_MIN, INT32_MAX in *; lia).
  rewrite (token_bytes_no_wrap (initial_capacity (strlen text))) by lia.
  rewrite Htok1.
  destruct (Z.ltb_spec n1 0) as [Hneg|Hnn].
  - rewrite (needed_no_wrap n1) by assumption.
    rewrite (token_bytes_no_wrap (Z.abs n1)) by (unfold INT32_MIN, INT32_MAX in *; lia).
    destruct mem; shim_cases; cbn [List.filter is_malloc is_tokenize orb nonnull].
    all: try (eexists; split; [apply TP_alloc_failed|intros ? [= <-]; reflexivity]).
    all: try (eexists; split;
              [apply TP_retry_alloc_failed; assumption|intros ? [= <-]; reflexivity]).
    all: eexists; (split; [apply (TP_retry _ n1); assumption|]).
    all: repeat match goal with H : (_ <=? 0) = _ |- _ => rewrite H end.
    all: intros ? [= <-]; reflexivity.
  - destruct mem; shim_cases; cbn [List.filter is_malloc is_tokenize orb nonnull].
    all: try (eexists; split; [apply TP_alloc_failed|intros ? [= <-]; reflexivity]).
    all: eexists; (split; [apply (TP_fits _ n1); assumption|]).
    all: repeat match goal with H : (_ <=? 0) = _ |- _ => rewrite H end.
    all: intros ? [= <-]; reflexivity.
Qed.

End ShimFacts.

(** ** The shim on the small engine *)

Section Runs.
Import Stub.

Example run_hello :
  let o := run (fresh (Some [])) (zeros 4) 4 0 0 0 in
  rc o = 0 /\
  trace o = [EvModelNEmbd 4; EvGetMemory true; EvMemoryClear true;
             EvModelGetVocab true; EvMalloc 64 true; EvTokenize 5 16 11;
             EvDecode 11 0; EvFree;
             EvGetEmbeddingsSeq 0 (retrieved_embedding (default (fresh None) (ctx_after o)))].
Proof. vm_compute. split; reflexivity. Qed.

Example run_long_text_retries_once :
  let o := run_on long_text (fresh (Some [])) (zeros 4) 4 0 0 0 in
  rc o = 0 /\
  token_events (trace o) =
    [EvMalloc 112 true; EvTokenize 20 28 (-41); EvMalloc 164 true; EvTokenize 20 41 41].
Proof. vm_compute. split; reflexivity. Qed.

(** Without the clear, what an earlier call left in the memory shows in the
    embedding of the next forward pass. *)
Example stub_memory_shows_in_embedding :
  let b := llama_batch_get_one [1; 2] 2 in
  retrieved_embedding (snd (decode (fresh (Some [7; 7; 7])) b)) <>
  retrieved_embedding (snd (decode (fresh (Some [])) b)).
Proof. vm_compute. discriminate. Qed.

(** *** Where the specification's wording and the code part *)

(** A context without a memory object: the text is tokenized and the
    forward pass runs, and no clear precedes them. *)
Lemma forward_pass_without_memory_clear :
  let o := run (fresh None) (zeros 4) 4 0 0 0 in
  rc o = 0 /\
  existsb is_tokenize (trace o) = true /\
  existsb is_decode (trace o) = true /\
  ~ (existsb is_decode (trace o) = true ->
     existsb is_memory_clear (trace o) = true).
Proof.
  vm_compute. repeat split. intros H. specialize (H eq_refl). discriminate H.
Qed.

(** A call with [n_threads = 4] and [n_threads_batch = 0] on a context set
    to 8 and 8: the setter receives both 4 and 0, and the batch setting
    does not stay at 8. *)
Lemma lone_thread_count_overwrites_other :
  let c := fresh (Some []) in
  let o := run c (zeros 4) 4 4 0 0 in
  r_n_threads_batch (ctx_rest c) = 8 /\
  rc o = 0 /\
  List.filter is_set_n_threads (trace o) = [EvSetNThreads 4 0] /\
  (r_n_threads ∘ ctx_rest) <$> ctx_after o = Some 4 /\
  ~ ((r_n_threads_batch ∘ ctx_rest) <$> ctx_after o =
     Some (r_n_threads_batch (ctx_rest c))).
Proof. vm_compute. repeat split. discriminate. Qed.

Lemma strlen_huge_text : strlen huge_text = 2147483640.
Proof.
  unfold huge_text. rewrite strlen_replicate by discriminate.
  now rewrite Z2Nat.id.
Qed.

(** A text of 2^31 - 8 bytes: [len + 8] does not fit [int32_t], and the
    first (and only) tokenizer call is made with a capacity of 16 tokens,
    not [max(len + 8, 16)]. *)
Lemma huge_text_capacity_wraps :
  let o := run_on huge_text (fresh (Some [])) (zeros 4) 4 0 0 0 in
  strlen huge_text = 2147483640 /\
  initial_capacity (strlen huge_text) = 2147483648 /\
  List.filter is_tokenize (trace o) = [EvTokenize 2147483640 16 (-2147483648)] /\
  ~ (exists len ret,
       head (List.filter is_tokenize (trace o)) =
       Some (EvTokenize len (initial_capacity (strlen huge_text)) ret)).
Proof.
  intros o.
  assert (Ho : List.filter is_tokenize (trace o) =
               [EvTokenize 2147483640 16 (-2147483648)]).
  { subst o. unfold run_on, rm_llama_embed_text, embed_text_body.
    rewrite strlen_huge_text.
    generalize huge_text. intros text. vm_compute. reflexivity. }
  rewrite Ho, strlen_huge_text.
  repeat split. intros (len & ret & H). vm_compute in H. discriminate H.
Qed.

(** *** The theorems at concrete calls *)

(** The small engine keeps its side of the contract: setting the thread
    counts keeps two contexts alike, and the forward pass on alike contexts
    returns the same code and makes the same embedding retrievable. *)
Lemma stub_threads_alike (c1 c2 : context) (a b : Z) :
  StubContract.alike c1 c2 ->
  StubContract.alike (llama_set_n_threads c1 a b) (llama_set_n_threads c2 a b).
Proof.
  destruct c1 as [m1 r1], c2 as [m2 r2]. unfold StubContract.alike. cbn. tauto.
Qed.

Lemma stub_decode_alike (c1 c2 : context) (batch : llama_batch) :
  StubContract.alike c1 c2 ->
  fst (llama_decode c1 batch) = fst (llama_decode c2 batch) /\
  (fst (llama_decode c1 batch) = 0 ->
   retrieved_embedding (snd (llama_decode c1 batch)) =
   retrieved_embedding (snd (llama_decode c2 batch))).
Proof.
  destruct c1 as [m1 [t1 tb1 e1 n1 p1 b1 o1]], c2 as [m2 [t2 tb2 e2 n2 p2 b2 o2]].
  unfold StubContract.alike. cbn. intros (-> & -> & -> & -> & ->).
  unfold retrieved_embedding. cbn. unfold decode. cbn.
  destruct (n2 <? n_tokens batch); cbn.
  - split; [reflexivity|discriminate].
  - split; reflexivity.
Qed.

(** A first call, the same call again on the context the first one left,
    and the same call on the context left by a call on another text with
    other thread counts: the three return 0 with the same output, though
    the contexts they start from hold different embeddings. *)
Lemma extraction_independent_of_prior_memory_witness :
  let s0 := fresh (Some [7; 7; 7]) in
  let first := run s0 (zeros 4) 4 0 0 2 in
  let s1 := default s0 (ctx_after first) in
  let s2 := default s0 (ctx_after (run_on StubContract.other_text s0 (zeros 4) 4 3 5 0)) in
  let second := run s1 (zeros 4) 4 0 0 2 in
  let third := run s2 (zeros 4) 4 0 0 2 in
  rc first = 0 /\
  r_output (ctx_rest s0) <> r_output (ctx_rest s1) /\
  r_output (ctx_rest s1) <> r_output (ctx_rest s2) /\
  (rc first = rc second /\ out_after first = out_after second) /\
  (rc first = rc third /\ out_after first = out_after third).
Proof.
  intros s0 first s1 s2 second third.
  split; [vm_compute; reflexivity|].
  split; [vm_compute; discriminate|].
  split; [vm_compute; discriminate|].
  unfold first, second, third, run, run_on.
  split.
  - apply (extraction_independent_of_prior_memory (E := engine) (L := libc)
             StubContract.alike 4096 s0 s1 model4 hello true false (zeros 4)
             4 0 0 2).
    + intros c1 c2. apply stub_threads_alike.
    + intros c1 c2 batch. apply stub_decode_alike.
    + vm_compute. repeat split.
    + simpl. lia.
  - apply (extraction_independent_of_prior_memory (E := engine) (L := libc)
             StubContract.alike 4096 s0 s2 model4 hello true false (zeros 4)
             4 0 0 2).
    + intros c1 c2. apply stub_threads_alike.
    + intros c1 c2 batch. apply stub_decode_alike.
    + vm_compute. repeat split.
    + simpl. lia.
Defined.

Lemma memory_reset_first_witness :
  exists tl,
    trace (run (fresh (Some [7])) (zeros 4) 4 0 0 0) =
      EvModelNEmbd 4 :: EvGetMemory true :: [EvMemoryClear true] ++ tl /\
    existsb is_memory_clear tl = false.
Proof.
  unfold run, run_on.
  apply (memory_reset_first (E := engine) (L := libc) 4096
           (fresh (Some [7])) model4 hello true false (zeros 4) 4 0 0 0).
  simpl. lia.
Defined.

Lemma thread_settings_passed_together_witness :
  exists tl,
    trace (run (fresh (Some [7])) (zeros 4) 4 4 0 0) =
      [EvModelNEmbd 4; EvGetMemory true; EvMemoryClear true] ++
      EvSetNThreads 4 0 :: tl /\
    existsb is_set_n_threads tl = false.
Proof.
  unfold run, run_on.
  refine (proj1 (proj1 (thread_settings_passed_together (E := engine) (L := libc)
            4096 (fresh (Some [7])) model4 hello true false (zeros 4) 4 4 0 0 _) _)).
  - simpl. lia.
  - left. lia.
Defined.

Lemma error_leaves_output_unwritten_witness :
  let o := run (fresh (Some [7])) (zeros 3) 3 0 0 2 in
  rc o = -2 /\ out_after o = Some (zeros 3).
Proof.
  split; [reflexivity|].
  unfold run, run_on.
  apply (error_leaves_output_unwritten (E := engine) (L := libc)).
  vm_compute. discriminate.
Defined.

Lemma token_buffer_protocol_witness :
  exists verdict,
    token_protocol 20
      (token_events (trace (run_on long_text (fresh (Some [])) (zeros 4) 4 0 0 0)))
      verdict /\
    forall code, verdict = Some code ->
      rc (run_on long_text (fresh (Some [])) (zeros 4) 4 0 0 0) = code.
Proof.
  unfold run_on.
  apply (token_buffer_protocol (E := engine) (L := libc) 4096
           (fresh (Some [])) model4 tt long_text true false (zeros 4) 4 0 0 0).
  - simpl. lia.
  - reflexivity.
  - vm_compute. discriminate.
  - vm_compute. reflexivity.
Defined.

Lemma output_buffer_guard_witness :
  let o := run (fresh (Some [7])) (zeros 3) 3 4 4 2 in
  o = Outcome (-2) (Some (fresh (Some [7]))) (Some (zeros 3)) 4096 [EvModelNEmbd 4] /\
  Forall (fun e => is_memory_clear e = false /\ is_set_n_threads e = false /\
                   is_get_vocab e = false /\ is_tokenize e = false /\
                   is_malloc e = false /\ is_decode e = false) (trace o).
Proof.
  unfold run, run_on.
  apply (output_buffer_guard (E := engine) (L := libc) 4096
           (fresh (Some [7])) model4 hello true false (zeros 3) 3 4 4 2).
  simpl. lia.
Defined.

Lemma embedding_retrieval_order_witness :
  let o := run (fresh (Some [7])) (zeros 4) 4 0 0 2 in
  exists c', ctx_after o = Some c' /\
    match llama_get_embeddings_seq c' 0 with
    | Some e =>
        EvGetEmbeddingsSeq 0 (Some e) ∈ trace o /\
        existsb is_get_embeddings (trace o) = false /\
        rc o = 0 /\
        out_after o = Some (normalizer 2 (zeros 4) e 4)
    | None =>
        EvGetEmbeddingsSeq 0 None ∈ trace o /\
        EvGetEmbeddings (llama_get_embeddings c') ∈ trace o /\
        match llama_get_embeddings c' with
        | Some e => rc o = 0 /\ out_after o = Some (normalizer 2 (zeros 4) e 4)
        | None => rc o = -6 /\ out_after o = Some (zeros 4)
        end
    end.
Proof.
  unfold run, run_on.
  apply (embedding_retrieval_order (E := engine) (L := libc) 4096
           (fresh (Some [7])) model4 hello true false (zeros 4) 4 0 0 2).
  exists 11. vm_compute. do 6 right. left.
Defined.

(** Mode 3 on the small engine: the call returns 0 and the output buffer
    holds the embedding of the forward pass as it is, here 83, 84, 85, 86. *)
Lemma unrecognized_mode_copies_witness :
  let o := run (fresh (Some [7])) (zeros 4) 4 0 0 3 in
  o = run (fresh (Some [7])) (zeros 4) 4 0 0 0 /\
  rc o = 0 /\
  out_after o = Some (map f32_of_Z [83; 84; 85; 86]).
Proof.
  intros o. unfold o, run, run_on.
  destruct (unrecognized_mode_copies (E := engine) (L := libc) 4096
              (Some (fresh (Some [7]))) (Some model4) (Some hello) true false
              (Some (zeros 4)) 4 0 0 3 ltac:(discriminate))
    as (Hsame & _ & Hcopy).
  split; [exact Hsame|].
  destruct (Hcopy (fresh (Some [7])) model4 hello (zeros 4) tt 11
              [1; 6; 8; 6; 5; 6; 12; 6; 12; 6; 15]
              (snd (decode (fresh (Some [])) (llama_batch_get_one
                      [1; 6; 8; 6; 5; 6; 12; 6; 12; 6; 15] 11)))
              (map f32_of_Z [83; 84; 85; 86])
              eq_refl eq_refl eq_refl eq_refl)
    as (Hrc & _ & Hout).
  - simpl. lia.
  - reflexivity.
  - vm_compute. reflexivity.
  - vm_compute. reflexivity.
  - vm_compute. reflexivity.
  - split; [exact Hrc|exact Hout].
Defined.

Lemma degenerate_dimension_guard_witness :
  rm_llama_embed_text (4096 : heap) (Some (fresh (Some [7]))) (Some (Model 0 true))
    (Some hello) true false (Some (zeros 1000)) 1000 0 0 0
  = Outcome (-2) (Some (fresh (Some [7]))) (Some (zeros 1000)) 4096 [EvModelNEmbd 0].
Proof.
  apply (degenerate_dimension_guard (E := engine) (L := libc) 4096
           (fresh (Some [7])) (Model 0 true) hello true false (zeros 1000) 1000 0 0 0).
  simpl. lia.
Defined.

End Runs.

(** ** Further properties of the extraction call *)

Lemma to_int32_range (z : Z) : INT32_MIN <= to_int32 z <= INT32_MAX.
Proof.
  unfold to_int32, INT32_MIN, INT32_MAX.
  pose proof (Z.mod_pos_bound (z + 2 ^ 31) (2 ^ 32)). lia.
Qed.

Ltac elem_of_trace H :=
  repeat match type of H with
  | _ ∈ [] => apply elem_of_nil in H; contradiction
  | _ ∈ _ :: _ => apply elem_of_cons in H as [H|H]; [try discriminate|]
  end.

Section ShimMore.
Context `{E : Engine} `{L : Libc}.
Implicit Types (h : heap) (c : context) (model : llama_model)
  (text : list Byte.byte) (out : list float).

(** The dimension check alone: a non-positive dimension stops the call. *)
Lemma dimension_check_stops h c model text
    (add_special parse_special : bool) out
    (out_len n_threads n_threads_batch normalize : Z) :
  llama_model_n_embd model <= 0 ->
  rm_llama_embed_text h (Some c) (Some model) (Some text)
    add_special parse_special (Some out)
    out_len n_threads n_threads_batch normalize
  = Outcome (-2) (Some c) (Some out) h [EvModelNEmbd (llama_model_n_embd model)].
Proof.
  intros Hdeg. shim_unfold.
  destruct (Z.leb_spec (llama_model_n_embd model) 0); [|lia].
  reflexivity.
Qed.

(** A null [ctx], [model], [text] or [out] gives -1 before anything is
    asked of the engine or the allocator, and nothing is changed. *)
Theorem null_argument_rejected h (ctx : option context)
    (model : option llama_model) (text : option (list Byte.byte))
    (add_special parse_special : bool) (out : option (list float))
    (out_len n_threads n_threads_batch normalize : Z) :
  ctx = None \/ model = None \/ text = None \/ out = None ->
  rm_llama_embed_text h ctx model text add_special parse_special out
    out_len n_threads n_threads_batch normalize
  = Outcome NullArgument ctx out h [].
Proof.
  intros Hnull. unfold rm_llama_embed_text.
  destruct ctx, model, text, out; try reflexivity.
  destruct Hnull as [?|[?|[?|?]]]; discriminate.
Qed.

(** A model without a vocabulary gives -3 with no allocation, tokenizer
    call or forward pass; the output buffer and the heap are untouched, but
    the context has already been reset and given the thread settings. *)
Theorem vocabulary_unavailable h c model text (add_special parse_special : bool)
    out (out_len n_threads n_threads_batch normalize : Z) :
  0 < llama_model_n_embd model <= out_len ->
  llama_model_get_vocab model = None ->
  rm_llama_embed_text h (Some c) (Some model) (Some text)
    add_special parse_special (Some out)
    out_len n_threads n_threads_batch normalize
  = Outcome VocabularyUnavailable
      (Some (configured_context c n_threads n_threads_batch)) (Some out) h
      (reset_events model c ++ thread_events n_threads n_threads_batch
       ++ [EvModelGetVocab false]).
Proof.
  intros [Hpos Hlen] Hvocab. destruct c as [mem rest].
  unfold configured_context, thread_events, reset_events, reset_context.
  shim_unfold.
  destruct (Z.leb_spec (llama_model_n_embd model) 0); [lia|].
  destruct (Z.ltb_spec out_len (llama_model_n_embd model)); [lia|].
  cbn [orb]. rewrite Hvocab.
  destruct mem, ((n_threads >? 0) || (n_threads_batch >? 0)); reflexivity.
Qed.

(** A non-zero return of the forward pass is the return code of the call,
    as it is; the token buffer has been freed, no embedding accessor is
    called and the output buffer is untouched. *)
Theorem forward_pass_failure_propagated h c model text
    (add_special parse_special : bool) out
    (out_len n_threads n_threads_batch normalize : Z) (n r : Z) :
  let o := rm_llama_embed_text h (Some c) (Some model) (Some text)
             add_special parse_special (Some out)
             out_len n_threads n_threads_batch normalize in
  EvDecode n r ∈ trace o -> r <> 0 ->
  rc o = r /\ out_after o = Some out /\
  last (trace o) = Some EvFree /\
  existsb is_get_embeddings_seq (trace o) = false /\
  existsb is_get_embeddings (trace o) = false.
Proof.
  intros o Hdec Hr. subst o. revert Hdec. shim_unfold.
  shim_cases; intros Hdec; elem_of_trace Hdec; simplify_eq;
    try match goal with H : negb (?z =? 0) = false |- _ =>
          apply negb_false_iff, Z.eqb_eq in H; contradiction end.
  all: repeat split; reflexivity.
Qed.

(** On every path the call makes at most two allocations, two tokenizer
    calls, one memory clear, one thread setting and one forward pass. *)
Theorem call_counts_bounded h (ctx : option context)
    (model : option llama_model) (text : option (list Byte.byte))
    (add_special parse_special : bool) (out : option (list float))
    (out_len n_threads n_threads_batch normalize : Z) :
  let t := trace (rm_llama_embed_text h ctx model text add_special parse_special
                    out out_len n_threads n_threads_batch normalize) in
  (length (List.filter is_malloc t) <= 2)%nat /\
  (length (List.filter is_tokenize t) <= 2)%nat /\
  (length (List.filter is_tokenize t) <= length (List.filter is_malloc_ok t))%nat /\
  (length (List.filter is_memory_clear t) <= 1)%nat /\
  (length (List.filter is_set_n_threads t) <= 1)%nat /\
  (length (List.filter is_decode t) <= 1)%nat.
Proof.
  intros t. subst t. shim_unfold.
  destruct ctx, model, text, out; try (cbn; lia).
  shim_cases; cbn; lia.
Qed.

(** Every buffer the call obtains from [malloc] it hands back to [free]
    before returning, on every path: the trace has as many frees as
    successful allocations, and with an allocator for which freeing the
    block just obtained restores the heap, the heap is as before the
    call. *)
Theorem token_buffer_released h (ctx : option context)
    (model : option llama_model) (text : option (list Byte.byte))
    (add_special parse_special : bool) (out : option (list float))
    (out_len n_threads n_threads_batch normalize : Z) :
  (forall h0 n p h1, malloc h0 n = (Some p, h1) -> free h1 p = h0) ->
  (forall h0 n h1, malloc h0 n = (None, h1) -> h1 = h0) ->
  let o := rm_llama_embed_text h ctx model text add_special parse_special out
             out_len n_threads n_threads_batch normalize in
  length (List.filter is_free (trace o)) =
  length (List.filter is_malloc_ok (trace o)) /\
  heap_after o = h.
Proof.
  intros Hfree Hnull o. subst o. shim_unfold.
  destruct ctx, model, text, out; try (split; reflexivity).
  shim_cases; (split; [reflexivity|]);
    repeat match goal with
    | H : malloc _ _ = (Some _, _) |- _ => apply Hfree in H
    | H : malloc _ _ = (None, _) |- _ => apply Hnull in H
    end; congruence.
Qed.

(** What a call that passes the argument checks leaves in the context: the
    reset and thread-configured context when it stops before the forward
    pass, and otherwise exactly what the forward pass made of that context
    on the batch of the [n] tokens that the last tokenizer call returned,
    with [n] positive; the accessors and the output step change nothing. *)
Theorem context_after_call h c model text (add_special parse_special : bool)
    out (out_len n_threads n_threads_batch normalize : Z) :
  0 < llama_model_n_embd model <= out_len ->
  let o := rm_llama_embed_text h (Some c) (Some model) (Some text)
             add_special parse_special (Some out)
             out_len n_threads n_threads_batch normalize in
  let c1 := configured_context c n_threads n_threads_batch in
  (existsb is_decode (trace o) = false -> ctx_after o = Some c1) /\
  (forall n r, EvDecode n r ∈ trace o ->
     0 < n /\
     exists vocab cap buf,
       llama_model_get_vocab model = Some vocab /\
       llama_tokenize vocab text (to_int32 (strlen text)) cap
                      add_special parse_special = (n, buf) /\
       llama_decode c1 (llama_batch_get_one buf n) = (r, default c1 (ctx_after o))).
Proof.
  intros [Hpos Hlen] o c1. subst o c1. destruct c as [mem rest].
  unfold configured_context, reset_context. shim_unfold.
  destruct (Z.leb_spec (llama_model_n_embd model) 0); [lia|].
  destruct (Z.ltb_spec out_len (llama_model_n_embd model)); [lia|].
  cbn [orb].
  destruct mem; shim_cases; (split; [intros Hnd; try reflexivity; discriminate Hnd|]);
    intros n r Hdec; elem_of_trace Hdec; simplify_eq.
  all: match goal with H : (_ <=? 0) = false |- _ => apply Z.leb_gt in H end.
  all: split; [assumption|].
  all: do 3 eexists; split; [reflexivity|]; split; [eassumption|].
  all: unfold llama_batch_get_one; cbn [default]; assumption.
Qed.

(** Whatever the length of the text, the first buffer holds between 16 and
    [INT32_MAX] tokens, so that its size in bytes is never zero and never
    wraps, and the first tokenizer call is given that capacity. *)
Theorem first_capacity_bounds h c model text (add_special parse_special : bool)
    out (out_len n_threads n_threads_batch normalize : Z) :
  let o := rm_llama_embed_text h (Some c) (Some model) (Some text)
             add_special parse_special (Some out)
             out_len n_threads n_threads_batch normalize in
  token_events (trace o) = [] \/
  exists cap ok rest,
    token_events (trace o) = EvMalloc (4 * cap) ok :: rest /\
    16 <= cap <= INT32_MAX /\
    match rest with
    | [] => ok = false
    | e :: _ => ok = true /\
                exists ret, e = EvTokenize (to_int32 (strlen text)) cap ret
    end.
Proof.
  intros o. subst o. unfold token_events. shim_unfold.
  set (cap := if to_int32 (to_size_t (strlen text + 8)) <? 16 then 16
              else to_int32 (to_size_t (strlen text + 8))).
  assert (Hcap : 16 <= cap <= INT32_MAX).
  { subst cap. pose proof (to_int32_range (to_size_t (strlen text + 8))).
    destruct (Z.ltb_spec (to_int32 (to_size_t (strlen text + 8))) 16);
      unfold INT32_MAX in *; lia. }
  assert (Hbytes : to_size_t (to_size_t cap * sizeof_llama_token) = 4 * cap).
  { apply token_bytes_no_wrap. lia. }
  rewrite Hbytes. clearbody cap.
  shim_cases; cbn [List.filter is_malloc is_tokenize orb nonnull];
    first [ left; reflexivity
          | right; do 3 eexists; split; [reflexivity|]; split; [exact Hcap|];
            first [ reflexivity | split; [reflexivity|eexists; reflexivity] ] ].
Qed.

(** The code 0 is returned only after the whole pipeline has run: the
    dimension check passed, the vocabulary was there, a forward pass over a
    positive number of tokens returned 0, and the last call was an
    embedding accessor that returned a vector. *)
Theorem success_means_embedded h (ctx : option context)
    (model : option llama_model) (text : option (list Byte.byte))
    (add_special parse_special : bool) (out : option (list float))
    (out_len n_threads n_threads_batch normalize : Z) :
  let o := rm_llama_embed_text h ctx model text add_special parse_special out
             out_len n_threads n_threads_batch normalize in
  rc o = 0 ->
  exists model0 n e,
    model = Some model0 /\
    0 < llama_model_n_embd model0 <= out_len /\
    EvModelGetVocab true ∈ trace o /\
    EvDecode n 0 ∈ trace o /\ 0 < n /\
    (last (trace o) = Some (EvGetEmbeddingsSeq 0 (Some e)) \/
     last (trace o) = Some (EvGetEmbeddings (Some e))).
Proof.
  intros o. subst o. shim_unfold.
  destruct ctx, model, text, out; try discriminate.
  shim_cases; intros Hrc; try discriminate; simplify_eq;
    try match goal with H : negb (?z =? 0) = true |- _ =>
          apply negb_true_iff, Z.eqb_neq in H; cbn in H; congruence end.
  all: repeat match goal with
       | H : (_ <=? 0) || _ = false |- _ => apply orb_false_iff in H as [? ?]
       | H : (_ <=? 0) = false |- _ => apply Z.leb_gt in H
       | H : (_ <? _) = false |- _ => apply Z.ltb_ge in H
       | H : negb (_ =? 0) = false |- _ => apply negb_false_iff, Z.eqb_eq in H; subst
       end.
  all: do 3 eexists; split; [reflexivity|]; split; [lia|].
  all: split; [rewrite !elem_of_cons; auto 20|].
  all: split; [rewrite !elem_of_cons; auto 20|].
  all: split; [assumption|].
  all: first [left; reflexivity | right; reflexivity].
Qed.

(** Both normalizers write the first [n] elements of the destination and
    nothing else: when source and destination hold at least [n] elements the
    destination keeps its length and every element from index [n] on. *)
Theorem normalizer_frame (normalize : Z) (dst src : list float) (n : Z) :
  n <= Z.of_nat (length dst) -> n <= Z.of_nat (length src) ->
  length (normalizer normalize dst src n) = length dst /\
  drop (Z.to_nat n) (normalizer normalize dst src n) = drop (Z.to_nat n) dst.
Proof.
  intros Hdst Hsrc.
  assert (Hcopy : length (rm_copy_f32 dst src n) = length dst /\
                  drop (Z.to_nat n) (rm_copy_f32 dst src n) = drop (Z.to_nat n) dst).
  { unfold rm_copy_f32, memcpy_f32. destruct (Z.leb_spec n 0); [split; reflexivity|].
    split.
    - rewrite length_app, length_take, length_drop. lia.
    - rewrite drop_app_length'; [reflexivity|]. rewrite length_take. lia. }
  unfold normalizer. destruct (normalize =? 2); [|exact Hcopy].
  unfold rm_l2_normalize. destruct (Z.leb_spec n 0); [split; reflexivity|].
  destruct (f64_leb _ _); [exact Hcopy|].
  split; [apply length_scale_loop|].
  apply list_eq. intros i. rewrite !lookup_drop.
  apply scale_loop_lookup_ge. lia.
Qed.

(** A successful call overwrites the first [n_embd] elements of the output
    buffer and nothing else, when the buffer really has the [n_embd]
    elements and the engine's vector has them too. *)
Theorem success_output_shape h c model text (add_special parse_special : bool)
    out (out_len n_threads n_threads_batch normalize : Z) :
  let o := rm_llama_embed_text h (Some c) (Some model) (Some text)
             add_special parse_special (Some out)
             out_len n_threads n_threads_batch normalize in
  let n := llama_model_n_embd model in
  rc o = 0 ->
  n <= Z.of_nat (length out) ->
  (forall c' e, ctx_after o = Some c' -> retrieved_embedding c' = Some e ->
                n <= Z.of_nat (length e)) ->
  exists c' e out',
    ctx_after o = Some c' /\ retrieved_embedding c' = Some e /\
    out_after o = Some out' /\
    out' = normalizer normalize out e n /\
    length out' = length out /\
    drop (Z.to_nat n) out' = drop (Z.to_nat n) out.
Proof.
  intros o n. subst o n. unfold retrieved_embedding, normalizer. shim_unfold.
  shim_cases; intros Hrc Hout Hembd; try discriminate; simplify_eq;
    try match goal with H : negb (?z =? 0) = true |- _ =>
          apply negb_true_iff, Z.eqb_neq in H; cbn in H; congruence end.
  all: match goal with
       | |- context [rm_l2_normalize ?o ?e ?n] =>
           pose proof (normalizer_frame 2 o e n Hout) as Hframe
       | |- context [rm_copy_f32 ?o ?e ?n] =>
           pose proof (normalizer_frame 0 o e n Hout) as Hframe
       end.
  all: unfold normalizer in Hframe; cbn [Z.eqb Pos.eqb] in Hframe.
  all: do 3 eexists; split; [reflexivity|].
  all: repeat match goal with H : _ = _ |- _ => rewrite H end.
  all: split; [reflexivity|]; split; [reflexivity|]; split; [reflexivity|].
  all: apply Hframe; eapply Hembd; [reflexivity|].
  all: repeat match goal with H : _ = _ |- _ => rewrite H end; reflexivity.
Qed.

(** A caller that sizes the output buffer with [rm_llama_model_n_embd]:
    when that returns zero or less, extraction with the same model stops at
    the argument checks with -1 or -2; when it is positive, the buffer
    check cannot fail, and -2 can only be a forward pass that returned
    -2. *)
Theorem sized_by_model_dimension h (ctx : option context)
    (model : option llama_model) (text : option (list Byte.byte))
    (add_special parse_special : bool) (out : option (list float))
    (out_len n_threads n_threads_batch normalize : Z) :
  let n := rm_llama_model_n_embd model in
  let o := rm_llama_embed_text h ctx model text add_special parse_special out
             out_len n_threads n_threads_batch normalize in
  (n <= 0 ->
     (rc o = NullArgument \/ rc o = OutputBufferTooSmall) /\
     ctx_after o = ctx /\ out_after o = out /\
     Forall (fun e => e = EvModelNEmbd n) (trace o)) /\
  (0 < n -> n <= out_len -> rc o = OutputBufferTooSmall ->
     exists k, EvDecode k (-2) ∈ trace o).
Proof.
  intros n o. subst n o. unfold rm_llama_model_n_embd. split.
  - intros Hn. destruct model as [m|].
    + destruct ctx, text, out;
        try (cbn; repeat split; (left; reflexivity) || constructor).
      rewrite dimension_check_stops by assumption.
      cbn. repeat split; [right; reflexivity|]. repeat constructor.
    + destruct ctx, text, out; cbn; repeat split; (left; reflexivity) || constructor.
  - intros Hpos Hlen. destruct model as [m|]; [|lia]. shim_unfold.
    destruct ctx, text, out; try discriminate.
    destruct (Z.leb_spec (llama_model_n_embd m) 0); [lia|].
    destruct (Z.ltb_spec out_len (llama_model_n_embd m)); [lia|].
    cbn [orb].
    shim_cases; intros Hrc; try discriminate; simplify_eq.
    all: eexists; rewrite !elem_of_cons; auto 20.
Qed.

End ShimMore.

(** ** Rounding without underflow *)

Section Rounding.
Variables prec emax : Z.
Hypothesis prec_pos : 0 < prec.

Lemma fexp_ge_emin e : emin prec emax <= fexp prec emax e.
Proof. unfold fexp. lia. Qed.

Lemma fexp_lt e : emin prec emax < e -> fexp prec emax e < e.
Proof. unfold fexp. lia. Qed.

Lemma digits2_pos_lower m : 2 ^ (Zpos (digits2_pos m) - 1) <= Zpos m.
Proof.
  induction m as [m IH|m IH|]; cbn [digits2_pos]; [| |reflexivity].
  all: rewrite Pos2Z.inj_succ; replace (Z.succ (Zpos (digits2_pos m)) - 1)
         with (Z.succ (Zpos (digits2_pos m) - 1)) by lia;
       rewrite Z.pow_succ_r by lia; lia.
Qed.

Lemma shr_1_m mrs : 0 <= shr_m mrs -> shr_m (shr_1 mrs) = shr_m mrs / 2.
Proof.
  destruct mrs as [m r s]. cbn [shr_m]. intros Hm.
  rewrite <- Z.div2_div.
  destruct m as [|[p|p|]|]; try reflexivity. lia.
Qed.

Lemma iter_shr_m p : forall mrs,
  0 <= shr_m mrs -> shr_m (SpecFloat.iter_pos shr_1 p mrs) = shr_m mrs / 2 ^ Zpos p.
Proof.
  induction p as [p IH|p IH|]; intros mrs Hm; cbn [SpecFloat.iter_pos].
  - assert (H1 : 0 <= shr_m (shr_1 mrs)).
    { rewrite shr_1_m by assumption. apply Z.div_pos; lia. }
    assert (H2 : 0 <= shr_m (SpecFloat.iter_pos shr_1 p (shr_1 mrs))).
    { rewrite IH by assumption. apply Z.div_pos; [assumption|]. apply Z.pow_pos_nonneg; lia. }
    rewrite IH, IH, shr_1_m by assumption.
    rewrite !Z.div_div by (try apply Z.pow_pos_nonneg; lia).
    f_equal. rewrite Pos2Z.inj_xI. rewrite Z.pow_add_r, Z.pow_mul_r by lia.
    change (2 ^ 2) with 4. rewrite Z.pow_1_r.
    replace (4 ^ Zpos p) with (2 ^ Zpos p * 2 ^ Zpos p). lia.
    rewrite <- Z.pow_add_r by lia. replace (Zpos p + Zpos p) with (2 * Zpos p) by lia.
    rewrite Z.pow_mul_r by lia. reflexivity.
  - assert (H2 : 0 <= shr_m (SpecFloat.iter_pos shr_1 p mrs)).
    { rewrite IH by assumption. apply Z.div_pos; [assumption|]. apply Z.pow_pos_nonneg; lia. }
    rewrite IH, IH by assumption.
    rewrite !Z.div_div by (try apply Z.pow_pos_nonneg; lia).
    f_equal. rewrite Pos2Z.inj_xO. rewrite <- Z.pow_add_r by lia. f_equal. lia.
  - rewrite shr_1_m by assumption. reflexivity.
Qed.

Lemma shr_record_of_loc_m m l : shr_m (shr_record_of_loc m l) = m.
Proof. destruct l as [|[]]; reflexivity. Qed.

Lemma Zdigits2_pos m : 0 < m -> 0 < Zdigits2 m.
Proof. destruct m; cbn; lia. Qed.

Lemma Zdigits2_lower m : 0 < m -> 2 ^ (Zdigits2 m - 1) <= m.
Proof. destruct m as [|p|p]; try lia. intros _. apply digits2_pos_lower. Qed.

(** Shifting right by fewer bits than the number has leaves a positive
    mantissa; the exponent does not go down and ends at or above [emin]. *)
Lemma shr_fexp_pos m e l :
  0 < m -> emin prec emax < Zdigits2 m + e ->
  0 < shr_m (fst (shr_fexp prec emax m e l)) /\
  emin prec emax <= snd (shr_fexp prec emax m e l) /\
  e <= snd (shr_fexp prec emax m e l).
Proof.
  intros Hm Hd. unfold shr_fexp, shr.
  pose proof (fexp_lt _ Hd) as Hlt.
  pose proof (fexp_ge_emin (Zdigits2 m + e)) as Hge.
  destruct (fexp prec emax (Zdigits2 m + e) - e) as [|p|p] eqn:Hn; cbn [fst snd].
  - rewrite shr_record_of_loc_m. lia.
  - rewrite iter_shr_m by (rewrite shr_record_of_loc_m; lia).
    rewrite shr_record_of_loc_m. split; [|lia].
    apply Z.div_str_pos. split; [apply Z.pow_pos_nonneg; lia|].
    etransitivity; [|apply Zdigits2_lower; assumption].
    apply Z.pow_le_mono_r; lia.
  - rewrite shr_record_of_loc_m. lia.
Qed.

Lemma round_nearest_even_pos m l : 0 < m -> 0 < round_nearest_even m l.
Proof.
  intros Hm. destruct l as [|[]]; cbn; try lia. destruct (Z.even m); lia.
Qed.

Lemma binary_round_aux_ok sx mx ex lx :
  0 < mx -> emin prec emax < Zdigits2 mx + ex ->
  rounded_to prec emax sx ex (binary_round_aux prec emax sx mx ex lx).
Proof.
  intros Hm Hd. unfold binary_round_aux.
  pose proof (shr_fexp_pos mx ex lx Hm Hd) as (H1 & H2 & H3).
  destruct (shr_fexp prec emax mx ex lx) as [mrs' e'] eqn:Hs1. cbn [fst snd] in *.
  set (m2 := round_nearest_even (shr_m mrs') (loc_of_shr_record mrs')).
  assert (Hm2 : 0 < m2) by (apply round_nearest_even_pos; assumption).
  assert (Hd2 : emin prec emax < Zdigits2 m2 + e').
  { pose proof (Zdigits2_pos m2 Hm2). lia. }
  pose proof (shr_fexp_pos m2 e' loc_Exact Hm2 Hd2) as (H4 & H5 & H6).
  destruct (shr_fexp prec emax m2 e' loc_Exact) as [mrs'' e''] eqn:Hs2.
  cbn [fst snd] in *.
  destruct (shr_m mrs'') as [|m|m]; try lia.
  destruct (Z.leb e'' (emax - prec)); cbn; [repeat split; lia|reflexivity].
Qed.

Lemma binary_round_ok sx mx ex :
  emin prec emax <= ex ->
  rounded_to prec emax sx (Z.min ex (Zpos (digits2_pos mx) + ex - prec))
    (binary_round prec emax sx mx ex).
Proof.
  intros He. unfold binary_round, shl_align.
  pose proof (fexp_ge_emin (Zpos (digits2_pos mx) + ex)) as Hge.
  assert (Hlo : Zpos (digits2_pos mx) + ex - prec <= fexp prec emax (Zpos (digits2_pos mx) + ex))
    by (unfold fexp; lia).
  destruct (fexp prec emax (Zpos (digits2_pos mx) + ex) - ex) as [|d|d] eqn:Hn.
  - pose proof (binary_round_aux_ok sx (Zpos mx) ex loc_Exact eq_refl) as H.
    cbn [Zdigits2] in H. specialize (H ltac:(lia)).
    destruct (binary_round_aux _ _ _ _ _ _); cbn in *; try assumption; repeat split; try tauto; lia.
  - pose proof (binary_round_aux_ok sx (Zpos mx) ex loc_Exact eq_refl) as H.
    cbn [Zdigits2] in H. specialize (H ltac:(lia)).
    destruct (binary_round_aux _ _ _ _ _ _); cbn in *; try assumption; repeat split; try tauto; lia.
  - pose proof (binary_round_aux_ok sx (Zpos (Pos.iter xO mx d))
                  (fexp prec emax (Zpos (digits2_pos mx) + ex)) loc_Exact eq_refl) as H.
    cbn [Zdigits2] in H. specialize (H ltac:(lia)).
    destruct (binary_round_aux _ _ _ _ _ _); cbn in *; try assumption; repeat split; try tauto; lia.
Qed.

End Rounding.

(** ** The arithmetic of the normalizer *)

Section NormArithmetic.
Implicit Types (x : float) (a b : double) (src dst : list float).

Lemma emin_f64 : emin f64_prec f64_emax = -1074.
Proof. reflexivity. Qed.

Lemma valid_f32_exponent s m e :
  valid_f32 (S754_finite s m e) = true -> -149 <= e.
Proof.
  unfold valid_f32, valid_binary, bounded, canonical_mantissa.
  intros H. apply andb_prop in H as [H _]. apply Z.eqb_eq in H.
  unfold fexp, emin, f32_prec, f32_emax in H. lia.
Qed.

Lemma f64_positive_rounded lo a :
  rounded_to f64_prec f64_emax false lo a -> f64_positive a = true.
Proof.
  destruct a as [| | |s m e]; cbn; try contradiction.
  - intros ->. reflexivity.
  - intros (-> & He & _). now apply Z.leb_le.
Qed.

Lemma square_zero x :
  is_zero x = true ->
  f64_mul (double_of_float x) (double_of_float x) = f64_zero.
Proof. destruct x as [[]| | |]; try discriminate; reflexivity. Qed.

Lemma square_nan x :
  is_nan x = true ->
  f64_mul (double_of_float x) (double_of_float x) = S754_nan.
Proof. destruct x; try discriminate; reflexivity. Qed.

Lemma square_inf x :
  is_inf x = true ->
  f64_mul (double_of_float x) (double_of_float x) = S754_infinity false.
Proof. destruct x as [|[]| |]; try discriminate; reflexivity. Qed.

(** The square of a non-zero binary32 number does not underflow in
    binary64. *)
Lemma square_finite s m e :
  valid_f32 (S754_finite s m e) = true ->
  f64_positive (f64_mul (double_of_float (S754_finite s m e))
                        (double_of_float (S754_finite s m e))) = true.
Proof.
  intros Hv. apply valid_f32_exponent in Hv.
  cbn [double_of_float].
  pose proof (binary_round_ok f64_prec f64_emax eq_refl s m e) as Hr.
  rewrite emin_f64 in Hr. specialize (Hr ltac:(lia)).
  destruct (binary_round f64_prec f64_emax s m e) as [| s'| |s' m' e'];
    cbn [rounded_to] in Hr; try contradiction.
  - subst s'. destruct s; reflexivity.
  - destruct Hr as (-> & _ & Hlo).
    assert (He' : -201 <= e') by (unfold f64_prec in Hlo; lia).
    unfold f64_mul, SFmul. replace (xorb s s) with false by (destruct s; reflexivity).
    apply (f64_positive_rounded (e' + e')).
    apply binary_round_aux_ok; [reflexivity|reflexivity|].
    rewrite emin_f64. cbn [Zdigits2]. lia.
Qed.

Lemma square_nonneg x :
  valid_f32 x = true -> is_nan x = false ->
  f64_nonneg (f64_mul (double_of_float x) (double_of_float x)) = true /\
  (is_zero x = false ->
   f64_positive (f64_mul (double_of_float x) (double_of_float x)) = true).
Proof.
  intros Hv Hn. destruct x as [z|i| |s m e]; try discriminate.
  - rewrite square_zero by reflexivity. split; [reflexivity|discriminate].
  - rewrite square_inf by reflexivity. split; reflexivity.
  - pose proof (square_finite s m e Hv) as Hp. split; [|intros _; exact Hp].
    unfold f64_nonneg. now destruct (f64_mul _ _) as [[]| | |].
Qed.

Lemma f64_add_nan_r a : f64_add a S754_nan = S754_nan.
Proof. now destruct a. Qed.

Lemma f64_add_nan_l a : f64_add S754_nan a = S754_nan.
Proof. reflexivity. Qed.

Lemma f64_add_finite mx ex my ey :
  emin f64_prec f64_emax <= ex -> emin f64_prec f64_emax <= ey ->
  f64_positive (f64_add (S754_finite false mx ex) (S754_finite false my ey)) = true.
Proof.
  intros Hx Hy. unfold f64_add, SFadd. cbn [cond_Zopp Z.add].
  unfold binary_normalize.
  eapply f64_positive_rounded. apply binary_round_ok; [reflexivity|]. lia.
Qed.

(** Adding two numbers that are [+0] or greater. *)
Lemma f64_add_nonneg a b :
  f64_nonneg a = true -> f64_nonneg b = true ->
  f64_nonneg (f64_add a b) = true /\
  (f64_positive a = true \/ f64_positive b = true ->
   f64_positive (f64_add a b) = true) /\
  (a = S754_infinity false \/ b = S754_infinity false ->
   f64_add a b = S754_infinity false).
Proof.
  intros Ha Hb.
  destruct a as [[]|[]| |[] mx ex], b as [[]|[]| |[] my ey]; try discriminate.
  9: { cbn [f64_nonneg f64_positive] in Ha, Hb.
       apply Z.leb_le in Ha, Hb.
       pose proof (f64_add_finite mx ex my ey Ha Hb) as Hp.
       split; [|split].
       - unfold f64_nonneg. now destruct (f64_add _ _) as [[]| | |].
       - intros _. exact Hp.
       - intros [?|?]; discriminate. }
  all: cbn in *; repeat split; try assumption; try reflexivity.
  all: intros [?|?]; try discriminate; try assumption; reflexivity.
Qed.

(** The square root of a number greater than zero is greater than zero. *)
Lemma f64_sqrt_positive a :
  f64_positive a = true -> f64_positive (f64_sqrt a) = true.
Proof.
  destruct a as [|[]| |[] m e]; try discriminate; [reflexivity|].
  cbn [f64_positive]. intros He. apply Z.leb_le in He. rewrite emin_f64 in He.
  unfold f64_sqrt, SFsqrt, SFsqrt_core_binary.
  set (d := Zdigits2 (Zpos m)).
  set (e' := Z.min (fexp f64_prec f64_emax (Z.div2 (d + e + 1))) (Z.div2 e)).
  assert (He'lo : -1074 <= e').
  { subst e'. pose proof (fexp_ge_emin f64_prec f64_emax (Z.div2 (d + e + 1))) as H.
    rewrite emin_f64 in H. rewrite (Z.div2_div e).
    assert (-1074 <= e / 2) by (apply Z.div_le_lower_bound; lia). lia. }
  assert (He'hi : 2 * e' <= e).
  { subst e'. rewrite (Z.div2_div e). pose proof (Z.mul_div_le e 2 eq_refl). lia. }
  set (m' := match e - 2 * e' with
             | Zpos _ => Z.shiftl (Zpos m) (e - 2 * e')
             | Z0 => Zpos m
             | Zneg _ => Z0
             end).
  assert (Hm' : 0 < m').
  { subst m'. destruct (e - 2 * e') as [|p|p] eqn:Hs; [lia| |lia].
    rewrite Z.shiftl_mul_pow2 by lia.
    apply Z.mul_pos_pos; [lia|]. apply Z.pow_pos_nonneg; lia. }
  pose proof (Z.sqrtrem_spec m' ltac:(lia)) as Hsq.
  destruct (Z.sqrtrem m') as [q r].
  assert (Hq : 0 < q) by nia.
  eapply f64_positive_rounded.
  apply binary_round_aux_ok; [reflexivity|exact Hq|].
  rewrite emin_f64. pose proof (Zdigits2_pos q Hq). lia.
Qed.

Lemma f64_positive_not_le a :
  f64_positive a = true -> f64_leb a f64_zero = false.
Proof. destruct a as [|[]| |[] m e]; try discriminate; reflexivity. Qed.

Lemma Forall_take_lookup_total (P : float -> Prop) src (n : nat) :
  (n <= length src)%nat ->
  Forall P (take n src) <-> forall i : nat, (i < n)%nat -> P (src !!! i).
Proof.
  intros Hn. rewrite Forall_lookup_total. rewrite length_take, Nat.min_l by assumption.
  split; intros H i Hi.
  - rewrite <- (lookup_total_take_lt src n i) by assumption. now apply H.
  - rewrite lookup_total_take_lt by assumption. now apply H.
Qed.

Lemma sum_squares_zero_prefix src (n : nat) :
  (forall i : nat, (i < n)%nat -> is_zero (src !!! i) = true) ->
  sum_squares src n = f64_zero.
Proof.
  induction n as [|n IH]; intros H; [reflexivity|].
  rewrite sum_squares_S, IH by (intros; apply H; lia).
  rewrite square_zero by (apply H; lia). reflexivity.
Qed.

Lemma sum_squares_nan src (n : nat) :
  (exists i : nat, (i < n)%nat /\ is_nan (src !!! i) = true) ->
  sum_squares src n = S754_nan.
Proof.
  induction n as [|n IH]; intros (i & Hi & Hnan); [lia|].
  rewrite sum_squares_S.
  destruct (decide (i = n)) as [->|Hne].
  - rewrite square_nan by assumption. apply f64_add_nan_r.
  - rewrite IH by (exists i; split; [lia|assumption]). reflexivity.
Qed.

Lemma sum_squares_nonneg src (n : nat) :
  (forall i : nat, (i < n)%nat ->
     valid_f32 (src !!! i) = true /\ is_nan (src !!! i) = false) ->
  f64_nonneg (sum_squares src n) = true /\
  ((exists i : nat, (i < n)%nat /\ is_zero (src !!! i) = false) ->
   f64_positive (sum_squares src n) = true) /\
  ((exists i : nat, (i < n)%nat /\ is_inf (src !!! i) = true) ->
   sum_squares src n = S754_infinity false).
Proof.
  induction n as [|n IH]; intros H.
  - split; [reflexivity|]. split; intros (i & Hi & _); lia.
  - destruct IH as (IHn & IHp & IHi); [intros; apply H; lia|].
    destruct (H n ltac:(lia)) as [Hv Hnn].
    destruct (square_nonneg _ Hv Hnn) as [Hsq Hsqp].
    rewrite sum_squares_S.
    destruct (f64_add_nonneg _ _ IHn Hsq) as (Hadd & Haddp & Haddi).
    split; [exact Hadd|]. split.
    + intros (i & Hi & Hz). apply Haddp.
      destruct (decide (i = n)) as [->|Hne]; [right; now apply Hsqp|].
      left. apply IHp. exists i. split; [lia|assumption].
    + intros (i & Hi & Hinf). apply Haddi.
      destruct (decide (i = n)) as [->|Hne]; [right; now apply square_inf|].
      left. apply IHi. exists i. split; [lia|assumption].
Qed.

Lemma not_all_zero src (n : nat) :
  ~ (forall i : nat, (i < n)%nat -> is_zero (src !!! i) = true) ->
  exists i : nat, (i < n)%nat /\ is_zero (src !!! i) = false.
Proof.
  induction n as [|n IH]; intros H.
  - exfalso. apply H. intros; lia.
  - destruct (is_zero (src !!! n)) eqn:Hz.
    + destruct IH as (i & Hi & Hiz).
      { intros Hall. apply H. intros i Hi.
        destruct (decide (i = n)) as [->|Hne]; [assumption|]. apply Hall. lia. }
      exists i. split; [lia|assumption].
    + exists n. split; [lia|assumption].
Qed.

Lemma some_nan_or_none src (n : nat) :
  (exists i : nat, (i < n)%nat /\ is_nan (src !!! i) = true) \/
  (forall i : nat, (i < n)%nat -> is_nan (src !!! i) = false).
Proof.
  induction n as [|n [(i & Hi & Hn)|IH]].
  - right. intros; lia.
  - left. exists i. split; [lia|assumption].
  - destruct (is_nan (src !!! n)) eqn:Hn.
    + left. exists n. split; [lia|assumption].
    + right. intros i Hi. destruct (decide (i = n)) as [->|Hne]; [assumption|].
      apply IH. lia.
Qed.

(** The norm of binary32 numbers is zero or negative only if they are all
    zero. *)
Lemma l2_norm_positive src (n : nat) :
  (forall i : nat, (i < n)%nat -> valid_f32 (src !!! i) = true) ->
  (exists i : nat, (i < n)%nat /\ is_zero (src !!! i) = false) ->
  f64_leb (f64_sqrt (sum_squares src n)) f64_zero = false.
Proof.
  intros Hv Hnz. destruct (some_nan_or_none src n) as [Hnan|Hnn].
  - now rewrite sum_squares_nan.
  - apply f64_positive_not_le, f64_sqrt_positive.
    apply sum_squares_nonneg; [|assumption].
    intros i Hi. split; [now apply Hv|now apply Hnn].
Qed.

End NormArithmetic.


(** One NaN among the first [n] input elements makes every one of the [n]
    output elements NaN. *)
Theorem l2_nan_poisons (dst src : list float) (n : Z) (k : nat) :
  n <= Z.of_nat (length dst) ->
  (k < Z.to_nat n)%nat -> is_nan (src !!! k) = true ->
  forall i : nat, (i < Z.to_nat n)%nat ->
    rm_l2_normalize dst src n !! i = Some S754_nan.
Proof.
  intros Hdst Hk Hnan i Hi. unfold rm_l2_normalize.
  destruct (Z.leb_spec n 0); [lia|].
  rewrite sum_squares_nan by (exists k; split; assumption).
  change (f64_leb (f64_sqrt S754_nan) f64_zero) with false.
  change (float_of_double (f64_div f64_one (f64_sqrt S754_nan))) with S754_nan.
  cbv iota. rewrite scale_loop_lookup_lt by lia.
  f_equal. now destruct (src !!! i).
Qed.

(** An infinite element among binary32 numbers, none of them NaN, makes the
    norm infinite and the scaling factor zero: the output is NaN where the
    input is infinite and a zero of the input's sign everywhere else. *)
Theorem l2_infinite_input (dst src : list float) (n : Z) (k : nat) :
  n <= Z.of_nat (length dst) -> n <= Z.of_nat (length src) ->
  Forall (fun x => valid_f32 x = true /\ is_nan x = false) (take (Z.to_nat n) src) ->
  (k < Z.to_nat n)%nat -> is_inf (src !!! k) = true ->
  l2_inv src n = S754_zero false /\
  forall i : nat, (i < Z.to_nat n)%nat ->
    rm_l2_normalize dst src n !! i =
    Some (if is_inf (src !!! i) then S754_nan else S754_zero (f_sign (src !!! i))).
Proof.
  intros Hdst Hsrc Hvalid Hk Hinf.
  rewrite Forall_take_lookup_total in Hvalid by lia.
  assert (Hsum : sum_squares src (Z.to_nat n) = S754_infinity false).
  { apply sum_squares_nonneg; [assumption|]. exists k. split; assumption. }
  split.
  - unfold l2_inv, l2_norm. rewrite Hsum. reflexivity.
  - intros i Hi. unfold rm_l2_normalize.
    destruct (Z.leb_spec n 0); [lia|].
    rewrite Hsum.
    change (f64_leb (f64_sqrt (S754_infinity false)) f64_zero) with false.
    change (float_of_double (f64_div f64_one (f64_sqrt (S754_infinity false))))
      with (S754_zero false).
    cbv iota. rewrite scale_loop_lookup_lt by lia. f_equal.
    destruct (Hvalid i Hi) as [_ Hnn].
    destruct (src !!! i) as [[]|[]| |[] m e]; try discriminate; reflexivity.
Qed.

(** When the norm is positive but so small that its reciprocal exceeds the
    binary32 range, the scaling factor is [+inf]: non-zero elements come
    out as infinities of their sign, and zero elements as NaN. *)
Theorem l2_reciprocal_overflow (dst src : list float) (n : Z) :
  n <= Z.of_nat (length dst) ->
  f64_leb (l2_norm src n) f64_zero = false ->
  l2_inv src n = S754_infinity false ->
  forall i : nat, (i < Z.to_nat n)%nat ->
    rm_l2_normalize dst src n !! i =
    Some (if is_zero (src !!! i) || is_nan (src !!! i) then S754_nan
          else S754_infinity (f_sign (src !!! i))).
Proof.
  intros Hdst Hnorm Hinv i Hi. unfold rm_l2_normalize.
  destruct (Z.leb_spec n 0); [lia|].
  fold (l2_norm src n). rewrite Hnorm. fold (l2_inv src n). rewrite Hinv.
  rewrite scale_loop_lookup_lt by lia. f_equal.
  destruct (src !!! i) as [[]|[]| |[] m e]; reflexivity.
Qed.

(** ** The handle functions *)

Section HandleFacts.
Context `{E : Engine} `{Ld : !Loader}.

(** Whatever the engine's defaults, a model is loaded with vocabulary-only
    mode and tensor checking off and with the caller's three options; every
    other field of the parameters is the engine's default. *)
Theorem model_load_parameters (s : backend) (path_model : option (list Byte.byte))
    (n_gpu_layers : Z) (use_mmap use_mlock : bool) :
  exists p,
    rm_llama_model_load_from_file s path_model n_gpu_layers use_mmap use_mlock
    = llama_model_load_from_file s path_model p /\
    ModelParams.vocab_only p = false /\
    ModelParams.check_tensors p = false /\
    ModelParams.n_gpu_layers p = n_gpu_layers /\
    ModelParams.use_mmap p = use_mmap /\
    ModelParams.use_mlock p = use_mlock /\
    let d := llama_model_default_params in
    ModelParams.devices p = ModelParams.devices d /\
    ModelParams.tensor_buft_overrides p = ModelParams.tensor_buft_overrides d /\
    ModelParams.split_mode p = ModelParams.split_mode d /\
    ModelParams.main_gpu p = ModelParams.main_gpu d /\
    ModelParams.tensor_split p = ModelParams.tensor_split d /\
    ModelParams.progress_callback p = ModelParams.progress_callback d /\
    ModelParams.progress_callback_user_data p =
      ModelParams.progress_callback_user_data d /\
    ModelParams.kv_overrides p = ModelParams.kv_overrides d /\
    ModelParams.use_extra_bufts p = ModelParams.use_extra_bufts d /\
    ModelParams.no_host p = ModelParams.no_host d.
Proof.
  eexists. split; [reflexivity|]. cbn. repeat split; reflexivity.
Qed.

(** A null model gives a null context without a call into the engine.
    Otherwise the context is created from the engine's defaults with the
    sizes, thread counts and embeddings flag of the caller; the pooling and
    attention types are the caller's unless they are -1, which keeps the
    engine's default; nothing else is changed. *)
Theorem context_init_parameters (s : backend) (model : option llama_model)
    (n_ctx n_batch n_ubatch n_threads n_threads_batch
     pooling_type attention_type : Z) (embeddings : bool) :
  let r := rm_llama_context_init s model n_ctx n_batch n_ubatch
             n_threads n_threads_batch pooling_type attention_type embeddings in
  let d := llama_context_default_params in
  match model with
  | None => r = (None, s)
  | Some m =>
    exists p,
      r = llama_init_from_model s m p /\
      ContextParams.n_ctx p = n_ctx /\
      ContextParams.n_batch p = n_batch /\
      ContextParams.n_ubatch p = n_ubatch /\
      ContextParams.n_threads p = n_threads /\
      ContextParams.n_threads_batch p = n_threads_batch /\
      ContextParams.embeddings p = embeddings /\
      ContextParams.pooling_type p =
        (if pooling_type =? -1 then ContextParams.pooling_type d else pooling_type) /\
      ContextParams.attention_type p =
        (if attention_type =? -1 then ContextParams.attention_type d
         else attention_type) /\
      p = ContextParams.Make
            n_ctx n_batch n_ubatch (ContextParams.n_seq_max d)
            n_threads n_threads_batch
            (ContextParams.rope_scaling_type d)
            (ContextParams.pooling_type p) (ContextParams.attention_type p)
            (ContextParams.flash_attn_type d)
            (ContextParams.rope_freq_base d) (ContextParams.rope_freq_scale d)
            (ContextParams.yarn_ext_factor d) (ContextParams.yarn_attn_factor d)
            (ContextParams.yarn_beta_fast d) (ContextParams.yarn_beta_slow d)
            (ContextParams.yarn_orig_ctx d) (ContextParams.defrag_thold d)
            (ContextParams.cb_eval d) (ContextParams.cb_eval_user_data d)
            (ContextParams.type_k d) (ContextParams.type_v d)
            (ContextParams.abort_callback d) (ContextParams.abort_callback_data d)
            embeddings
            (ContextParams.offload_kqv d) (ContextParams.no_perf d)
            (ContextParams.op_offload d) (ContextParams.swa_full d)
            (ContextParams.kv_unified d)
  end.
Proof.
  intros r d. subst r d. destruct model as [m|]; [|reflexivity].
  unfold rm_llama_context_init, LLAMA_POOLING_TYPE_UNSPECIFIED,
    LLAMA_ATTENTION_TYPE_UNSPECIFIED.
  eexists. split; [reflexivity|]. cbn.
  destruct (pooling_type =? -1), (attention_type =? -1); repeat split; reflexivity.
Qed.

End HandleFacts.

(** ** The legacy binding *)

Section BindingFacts.
Context `{E : Engine} `{C : !Common}.

Lemma get_embeddings_keeps_prompt (now : Z) (params : common_params)
    (ctx : context) (model : llama_model) (res : list float) :
  prompt (b_params (get_embeddings now params ctx model res)) = prompt params.
Proof.
  unfold get_embeddings.
  destruct (sampling_seed params <=? 0); cbn [prompt sampling_seed].
  all: destruct (0 <? _); [destruct (llama_decode _ _) as [r c']; destruct (r =? 0)|];
       cbn [negb]; try reflexivity.
  all: destruct (llama_get_embeddings_seq _ 0);
       [|destruct (llama_get_embeddings _)]; reflexivity.
Qed.

(** [get_embeddings] returns 0 or 1 and nothing else, so that the code of
    a failed forward pass is not passed on; when it returns 1 the result
    buffer is untouched; the prompt is never changed. *)
Theorem get_embeddings_codes (now : Z) (params : common_params) (ctx : context)
    (model : llama_model) (res : list float) :
  let o := get_embeddings now params ctx model res in
  (b_rc o = 0 \/ b_rc o = 1) /\
  (b_rc o = 1 -> b_res o = res) /\
  prompt (b_params o) = prompt params /\
  sampling_seed (b_params o) =
    (if sampling_seed params <=? 0 then seed_of_time now else sampling_seed params).
Proof.
  intros o. subst o. unfold get_embeddings.
  destruct (sampling_seed params <=? 0); cbn [prompt sampling_seed].
  all: destruct (0 <? _); [destruct (llama_decode _ _) as [r c']; destruct (r =? 0)|];
       cbn [negb]; try (cbn; tauto).
  all: destruct (llama_get_embeddings_seq _ 0);
       [|destruct (llama_get_embeddings _)]; cbn; intuition discriminate.
Qed.

(** When the prompt gives no token, [get_embeddings] runs no forward pass
    and leaves the context as it is: the vector it normalizes is the one
    the context already held, from whatever call came before, and it fails
    only if the context holds none. *)
Theorem get_embeddings_empty_prompt (now : Z) (params : common_params)
    (ctx : context) (model : llama_model) (res : list float) :
  common_tokenize ctx (prompt params) true true = [] ->
  let o := get_embeddings now params ctx model res in
  b_ctx o = ctx /\
  match retrieved_embedding ctx with
  | Some e =>
      b_rc o = 0 /\
      b_res o = common_embd_normalize e res (llama_model_n_embd model) 2
  | None => b_rc o = 1 /\ b_res o = res
  end.
Proof.
  intros Hempty o. subst o. unfold get_embeddings, retrieved_embedding.
  assert (Hp : prompt (if sampling_seed params <=? 0
                       then CommonParams (seed_of_time now) (prompt params)
                       else params) = prompt params)
    by (destruct (_ <=? 0); reflexivity).
  rewrite Hp, Hempty. change (0 <? Z.of_nat (length (@nil llama_token))) with false.
  cbv iota.
  destruct (llama_get_embeddings_seq ctx 0);
    [|destruct (llama_get_embeddings ctx)]; cbn; repeat split; reflexivity.
Qed.

Lemma append_pieces_spec (vocab : option llama_vocab) (tokens : list llama_token) :
  forall p,
    append_pieces vocab tokens p =
    (all_convert vocab tokens, p ++ converted_pieces vocab tokens).
Proof.
  induction tokens as [|t rest IH]; intros p; cbn [append_pieces converted_pieces all_convert forallb].
  - now rewrite app_nil_r.
  - destruct (llama_token_to_piece vocab t 128 0 true) as [n buf]. cbn [fst].
    destruct (n <? 0); cbn [negb andb].
    + now rewrite app_nil_r.
    + rewrite IH. now rewrite <- app_assoc.
Qed.

(** [get_token_embeddings] appends to the prompt that the parameters
    already hold: after the call the prompt is the old one followed by the
    pieces of the tokens up to the first that fails to convert.  When all
    convert, the call is [get_embeddings] on that longer prompt; when one
    fails it returns 1 with context and result buffer untouched, and the
    pieces appended so far stay in the prompt. *)
Theorem get_token_embeddings_prompt (now : Z) (params : common_params)
    (ctx : context) (model : llama_model) (tokens : list llama_token)
    (tokenSize : Z) (res : list float) :
  let vocab := llama_model_get_vocab model in
  let toks := take (Z.to_nat tokenSize) tokens in
  let grown := CommonParams (sampling_seed params)
                 (prompt params ++ converted_pieces vocab toks) in
  let o := get_token_embeddings now params ctx model tokens tokenSize res in
  prompt (b_params o) = prompt params ++ converted_pieces vocab toks /\
  (if all_convert vocab toks
   then o = get_embeddings now grown ctx model res
   else o = BindingOutcome 1 grown ctx res).
Proof.
  intros vocab toks grown o. subst o grown toks vocab.
  unfold get_token_embeddings. rewrite append_pieces_spec.
  destruct (all_convert _ _); [|split; reflexivity].
  split; [|reflexivity].
  apply get_embeddings_keeps_prompt.
Qed.

End BindingFacts.

(** ** The further properties at concrete inputs *)

Section MoreRuns.
Import Stub StubCommon.

Lemma null_argument_rejected_witness :
  rm_llama_embed_text (4096 : heap) (Some (fresh (Some [7]))) (Some model4) None
    true false (Some (zeros 4)) 4 0 0 0
  = Outcome NullArgument (Some (fresh (Some [7]))) (Some (zeros 4)) 4096 [].
Proof.
  apply (null_argument_rejected (E := engine) (L := libc)).
  right. right. left. reflexivity.
Defined.

Lemma vocabulary_unavailable_witness :
  rm_llama_embed_text (4096 : heap) (Some (fresh (Some [7]))) (Some (Model 4 false))
    (Some hello) true false (Some (zeros 4)) 4 2 0 0
  = Outcome VocabularyUnavailable
      (Some (configured_context (fresh (Some [7])) 2 0)) (Some (zeros 4)) 4096
      (reset_events (Model 4 false) (fresh (Some [7])) ++ thread_events 2 0
       ++ [EvModelGetVocab false]).
Proof.
  apply (vocabulary_unavailable (E := engine) (L := libc)).
  - simpl. lia.
  - reflexivity.
Defined.

(** A context with room for four tokens. *)
Lemma forward_pass_failure_propagated_witness :
  let small := LlamaContext (Some [7]) (Rest 8 8 4 4 true true None) in
  let o := run small (zeros 4) 4 0 0 0 in
  rc o = 1 /\ out_after o = Some (zeros 4) /\
  last (trace o) = Some EvFree /\
  existsb is_get_embeddings_seq (trace o) = false /\
  existsb is_get_embeddings (trace o) = false.
Proof.
  intros small o. subst o. unfold run, run_on.
  apply (forward_pass_failure_propagated (E := engine) (L := libc) 4096 small
           model4 hello true false (zeros 4) 4 0 0 0 11 1).
  - vm_compute. do 6 right. left.
  - discriminate.
Defined.

Lemma token_buffer_released_witness :
  let o := run_on long_text (fresh (Some [7])) (zeros 4) 4 0 0 0 in
  length (List.filter is_free (trace o)) =
  length (List.filter is_malloc_ok (trace o)) /\
  heap_after o = 4096.
Proof.
  unfold run_on.
  apply (token_buffer_released (E := engine) (L := libc)).
  - intros h0 n p h1. cbn. destruct (n <=? h0); intros [= <- <-]. lia.
  - intros h0 n h1. cbn. destruct (n <=? h0); intros [= <-]. reflexivity.
Defined.

Lemma context_after_call_witness :
  let o := run (fresh (Some [7])) (zeros 4) 4 0 0 0 in
  let c1 := configured_context (fresh (Some [7])) 0 0 in
  (existsb is_decode (trace o) = false -> ctx_after o = Some c1) /\
  (forall n r, EvDecode n r ∈ trace o ->
     0 < n /\
     exists vocab cap buf,
       llama_model_get_vocab model4 = Some vocab /\
       llama_tokenize vocab hello (to_int32 (strlen hello)) cap true false = (n, buf) /\
       llama_decode c1 (llama_batch_get_one buf n) = (r, default c1 (ctx_after o))).
Proof.
  unfold run, run_on.
  apply (context_after_call (E := engine) (L := libc) 4096 (fresh (Some [7]))
           model4 hello true false (zeros 4) 4 0 0 0).
  simpl. lia.
Defined.

Lemma success_means_embedded_witness :
  let o := run (fresh (Some [7])) (zeros 4) 4 0 0 0 in
  exists model0 n e,
    Some model4 = Some model0 /\
    0 < llama_model_n_embd model0 <= 4 /\
    EvModelGetVocab true ∈ trace o /\
    EvDecode n 0 ∈ trace o /\ 0 < n /\
    (last (trace o) = Some (EvGetEmbeddingsSeq 0 (Some e)) \/
     last (trace o) = Some (EvGetEmbeddings (Some e))).
Proof.
  unfold run, run_on.
  apply (success_means_embedded (E := engine) (L := libc) 4096
           (Some (fresh (Some [7]))) (Some model4) (Some hello) true false
           (Some (zeros 4)) 4 0 0 0).
  reflexivity.
Defined.

Lemma normalizer_frame_witness :
  let dst := zeros 5 in
  let src := [f32_of_Z 3; f32_of_Z 4; S754_zero false] in
  length (normalizer 2 dst src 3) = 5%nat /\
  drop 3 (normalizer 2 dst src 3) = drop 3 dst.
Proof.
  intros dst src.
  apply (normalizer_frame 2 dst src 3); vm_compute; discriminate.
Defined.

Lemma success_output_shape_witness :
  let o := run (fresh (Some [7])) (zeros 6) 6 0 0 2 in
  exists c' e out',
    ctx_after o = Some c' /\ retrieved_embedding c' = Some e /\
    out_after o = Some out' /\
    out' = normalizer 2 (zeros 6) e 4 /\
    length out' = 6%nat /\
    drop 4 out' = drop 4 (zeros 6).
Proof.
  unfold run, run_on.
  apply (success_output_shape (E := engine) (L := libc) 4096 (fresh (Some [7]))
           model4 hello true false (zeros 6) 6 0 0 2).
  - reflexivity.
  - vm_compute. discriminate.
  - intros c' e Hc He. vm_compute in Hc. injection Hc as <-.
    vm_compute in He. injection He as <-. vm_compute. discriminate.
Defined.


Lemma l2_nan_poisons_witness :
  rm_l2_normalize (zeros 3) [f32_of_Z 3; S754_nan; f32_of_Z 4] 3 !! 0%nat
  = Some S754_nan.
Proof.
  apply (l2_nan_poisons (zeros 3) [f32_of_Z 3; S754_nan; f32_of_Z 4] 3 1).
  - vm_compute. discriminate.
  - vm_compute. lia.
  - reflexivity.
  - vm_compute. lia.
Defined.

Lemma l2_infinite_input_witness :
  let src := [f32_of_Z (-3); S754_infinity true; S754_zero false] in
  l2_inv src 3 = S754_zero false /\
  forall i : nat, (i < Z.to_nat 3)%nat ->
    rm_l2_normalize (zeros 3) src 3 !! i =
    Some (if is_inf (src !!! i) then S754_nan else S754_zero (f_sign (src !!! i))).
Proof.
  intros src.
  apply (l2_infinite_input (zeros 3) src 3 1).
  - vm_compute. discriminate.
  - vm_compute. discriminate.
  - repeat constructor.
  - vm_compute. lia.
  - reflexivity.
Defined.

Lemma l2_reciprocal_overflow_witness :
  let tiny := S754_finite false 1 (-149) in
  let src := [tiny; S754_zero false] in
  rm_l2_normalize (zeros 2) src 2 !! 0%nat = Some (S754_infinity false) /\
  rm_l2_normalize (zeros 2) src 2 !! 1%nat = Some S754_nan.
Proof.
  intros tiny src.
  assert (Hdst : 2 <= Z.of_nat (length (zeros 2))) by (vm_compute; discriminate).
  assert (Hnorm : f64_leb (l2_norm src 2) f64_zero = false) by (vm_compute; reflexivity).
  assert (Hinv : l2_inv src 2 = S754_infinity false) by (vm_compute; reflexivity).
  pose proof (l2_reciprocal_overflow (zeros 2) src 2 Hdst Hnorm Hinv) as H.
  split.
  - etrans; [apply (H 0%nat); vm_compute; lia|reflexivity].
  - etrans; [apply (H 1%nat); vm_compute; lia|reflexivity].
Defined.

(** A context that holds an embedding from an earlier call, and an empty
    prompt without the leading token: the old embedding is served. *)
Lemma get_embeddings_empty_prompt_witness :
  let old := [f32_of_Z 3; f32_of_Z 4; S754_zero false; S754_zero false] in
  let c := LlamaContext (Some [7]) (Rest 8 8 4 512 true true (Some old)) in
  let tokenizer_without_bos : Common :=
    {| common_tokenize := fun _ text _ _ => snd (tokenize tt text (strlen text) INT32_MAX false false);
       common_embd_normalize := common_embd_normalize;
       llama_token_to_piece := piece;
       seed_of_time := seed_of_time |} in
  let o := get_embeddings (C := tokenizer_without_bos) 1700000000
             (CommonParams 0 []) c model4 (zeros 4) in
  b_ctx o = c /\ b_rc o = 0 /\ b_res o = rm_l2_normalize (zeros 4) old 4.
Proof.
  intros old c tk o.
  destruct (get_embeddings_empty_prompt (E := engine) (C := tk) 1700000000
              (CommonParams 0 []) c model4 (zeros 4) eq_refl) as [Hc Hr].
  split; [exact Hc|exact Hr].
Defined.

End MoreRuns.

(** ** What the return codes say *)

Section ReturnCodes.
Context `{E : Engine} `{L : Libc}.

(** When no forward pass failed, each of the shim's own codes names the
    step that stopped the call: -2 the dimension check, with nothing else
    done; -3 the vocabulary fetch; -4 an allocation that returned null, as
    the last action; -5 a final tokenizer count of zero or less, with the
    buffer freed and no forward pass; -6 both embedding accessors returning
    null; and -1 is not returned for non-null arguments. *)
Theorem error_code_meaning (h : heap) (c : context) (model : llama_model)
    (text : list Byte.byte) (add_special parse_special : bool) (out : list float)
    (out_len n_threads n_threads_batch normalize : Z) :
  let o := rm_llama_embed_text h (Some c) (Some model) (Some text)
             add_special parse_special (Some out)
             out_len n_threads n_threads_batch normalize in
  (forall n r, EvDecode n r ∈ trace o -> r = 0) ->
  rc o <> NullArgument /\
  (rc o = OutputBufferTooSmall ->
     trace o = [EvModelNEmbd (llama_model_n_embd model)] /\
     (llama_model_n_embd model <= 0 \/ out_len < llama_model_n_embd model)) /\
  (rc o = VocabularyUnavailable ->
     llama_model_get_vocab model = None /\
     last (trace o) = Some (EvModelGetVocab false)) /\
  (rc o = BufferAllocationFailed ->
     exists size, last (trace o) = Some (EvMalloc size false)) /\
  (rc o = EmptyOrFailedTokenization ->
     last (trace o) = Some EvFree /\
     existsb is_decode (trace o) = false /\
     exists len cap ret,
       last (List.filter is_tokenize (trace o)) = Some (EvTokenize len cap ret) /\
       ret <= 0) /\
  (rc o = EmbeddingsUnavailable ->
     last (trace o) = Some (EvGetEmbeddings None)).
Proof.
  intros o Hdec. subst o. revert Hdec. shim_unfold.
  shim_cases; intros Hdec;
    try match goal with
        | Hn : negb (?z =? 0) = true |- _ =>
            exfalso; apply negb_true_iff, Z.eqb_neq in Hn; apply Hn;
            eapply Hdec; rewrite !elem_of_cons; eauto 20
        end.
  all: cbn [List.filter is_tokenize is_decode existsb last orb].
  all: cbv [id NullArgument].
  all: split; [congruence|].
  all: repeat match goal with
       | H : (_ <=? 0) || _ = true |- _ =>
           apply orb_true_iff in H; rewrite Z.leb_le, Z.ltb_lt in H
       | H : (_ <=? 0) = true |- _ => apply Z.leb_le in H
       end.
  all: unfold NullArgument, OutputBufferTooSmall, VocabularyUnavailable,
         BufferAllocationFailed, EmptyOrFailedTokenization, EmbeddingsUnavailable.
  all: repeat split; intros; try congruence; try assumption; eauto.
Qed.

End ReturnCodes.

Lemma error_code_meaning_witness :
  let o := Stub.run (Stub.fresh (Some [7])) (Stub.zeros 3) 3 0 0 0 in
  rc o = OutputBufferTooSmall /\ trace o = [EvModelNEmbd 4].
Proof.
  intros o. split; [reflexivity|].
  assert (Hdec : forall n r, EvDecode n r ∈ trace o -> r = 0).
  { intros n r H.
    assert (Ht : trace o = [EvModelNEmbd 4]) by reflexivity.
    rewrite Ht in H. elem_of_trace H. }
  destruct (error_code_meaning (E := Stub.engine) (L := Stub.libc) 4096
              (Stub.fresh (Some [7])) Stub.model4 Stub.hello true false
              (Stub.zeros 3) 3 0 0 0 Hdec) as (_ & H2 & _).
  apply (H2 eq_refl).
Defined.

(** ** Signs through the normalizer *)

Section Signs.
Variables prec emax : Z.

Lemma shr_fexp_nonneg m e l :
  0 <= m -> 0 <= shr_m (fst (shr_fexp prec emax m e l)).
Proof.
  intros Hm. unfold shr_fexp, shr.
  destruct (fexp prec emax (Zdigits2 m + e) - e) as [|p|p]; cbn [fst].
  - now rewrite shr_record_of_loc_m.
  - rewrite iter_shr_m by (rewrite shr_record_of_loc_m; lia).
    rewrite shr_record_of_loc_m. apply Z.div_pos; [lia|].
    apply Z.pow_pos_nonneg; lia.
  - now rewrite shr_record_of_loc_m.
Qed.

(** Rounding gives a number of the sign it was asked for. *)
Lemma binary_round_aux_sign sx mx ex lx :
  0 <= mx -> has_sign sx (binary_round_aux prec emax sx mx ex lx).
Proof.
  intros Hm. unfold binary_round_aux.
  pose proof (shr_fexp_nonneg mx ex lx Hm) as H1.
  destruct (shr_fexp prec emax mx ex lx) as [mrs' e']. cbn [fst] in H1.
  set (m2 := round_nearest_even (shr_m mrs') (loc_of_shr_record mrs')).
  assert (Hm2 : 0 <= m2).
  { subst m2. unfold round_nearest_even.
    destruct (loc_of_shr_record mrs') as [|[]]; try lia.
    destruct (Z.even (shr_m mrs')); lia. }
  pose proof (shr_fexp_nonneg m2 e' loc_Exact Hm2) as H2.
  destruct (shr_fexp prec emax m2 e' loc_Exact) as [mrs'' e'']. cbn [fst] in H2.
  destruct (shr_m mrs'') as [|m|m]; [split; reflexivity| |lia].
  destruct (Z.leb e'' (emax - prec)); split; reflexivity.
Qed.

Lemma binary_round_sign sx mx ex :
  has_sign sx (binary_round prec emax sx mx ex).
Proof.
  unfold binary_round.
  destruct (shl_align mx ex _) as [mz ez].
  apply binary_round_aux_sign. lia.
Qed.

End Signs.

Section NormSigns.
Implicit Types (x inv : float) (a : double) (src dst : list float).

(** The reciprocal of a positive norm, as a [float], is not NaN and not
    negative. *)
Lemma reciprocal_sign a :
  f64_positive a = true ->
  has_sign false (float_of_double (f64_div f64_one a)).
Proof.
  destruct a as [|[]| |[] m e]; try discriminate; intros _.
  - split; reflexivity.
  - assert (Hd : has_sign false (f64_div f64_one (S754_finite false m e))).
    { change f64_one with (S754_finite false 4503599627370496 (-52)).
      unfold f64_div, SFdiv, SFdiv_core_binary.
      set (s := _ - _ - Z.min _ _).
      set (m' := match s with Z.pos _ => Z.shiftl _ s | 0 => _ | Z.neg _ => 0 end).
      assert (Hm' : 0 <= m').
      { subst m'. destruct s; try lia. apply Z.shiftl_nonneg. lia. }
      pose proof (Z.div_pos m' (Zpos m) Hm' eq_refl) as Hq.
      unfold Z.div in Hq. destruct (Z.div_eucl m' (Zpos m)) as [q r].
      cbn [xorb]. now apply binary_round_aux_sign. }
    destruct (f64_div f64_one (S754_finite false m e)) as [s0|s0| |s0 m0 e0];
      destruct Hd as [Hn Hs]; try discriminate; cbn in Hs; subst s0.
    + split; reflexivity.
    + split; reflexivity.
    + apply binary_round_sign.
Qed.

(** Scaling by a factor that is not NaN and not negative keeps the sign,
    or gives NaN. *)
Lemma scale_sign x inv :
  is_nan x = false -> has_sign false inv ->
  is_nan (f32_mul x inv) = true \/ f_sign (f32_mul x inv) = f_sign x.
Proof.
  intros Hx [Hn Hs].
  destruct x as [sx|sx| |sx mx ex], inv as [si|si| |si mi ei];
    try discriminate; cbn in Hs; subst si; cbn;
    try (right; now destruct sx); try (now left).
  right.
  destruct (binary_round_aux_sign f32_prec f32_emax (xorb sx false)
              (Zpos (mx * mi)) (ex + ei) loc_Exact ltac:(lia)) as [_ H].
  rewrite H. apply xorb_false_r.
Qed.

Lemma all_zero_or_not src (k : nat) :
  (forall i : nat, (i < k)%nat -> is_zero (src !!! i) = true) \/
  ~ (forall i : nat, (i < k)%nat -> is_zero (src !!! i) = true).
Proof.
  induction k as [|k [IH|IH]].
  - left. intros; lia.
  - destruct (is_zero (src !!! k)) eqn:Hk.
    + left. intros i Hi. destruct (decide (i = k)) as [->|]; [assumption|].
      apply IH. lia.
    + right. intros Hall. specialize (Hall k ltac:(lia)). congruence.
  - right. intros Hall. apply IH. intros i Hi. apply Hall. lia.
Qed.

End NormSigns.

(** [rm_l2_normalize] never flips a sign: for binary32 input without NaN,
    every one of the [n] output elements is NaN or has the sign of the
    input element at its index. *)
Theorem l2_keeps_signs (dst src : list float) (n : Z) :
  0 < n -> n <= Z.of_nat (length dst) -> n <= Z.of_nat (length src) ->
  Forall (fun x => valid_f32 x = true /\ is_nan x = false) (take (Z.to_nat n) src) ->
  forall i : nat, (i < Z.to_nat n)%nat ->
    exists y, rm_l2_normalize dst src n !! i = Some y /\
              (is_nan y = true \/ f_sign y = f_sign (src !!! i)).
Proof.
  intros Hn Hdst Hsrc Hvalid i Hi.
  rewrite Forall_take_lookup_total in Hvalid by lia.
  unfold rm_l2_normalize. destruct (Z.leb_spec n 0); [lia|].
  destruct (all_zero_or_not src (Z.to_nat n)) as [Hall|Hnot].
  - rewrite sum_squares_zero_prefix by assumption.
    change (f64_leb (f64_sqrt f64_zero) f64_zero) with true. cbv iota.
    rewrite rm_copy_f32_pos by assumption.
    exists (src !!! i). split; [|right; reflexivity].
    rewrite lookup_app_l by (rewrite length_take; unfold float in *; lia).
    rewrite lookup_take_lt by assumption.
    apply list_lookup_lookup_total_lt. unfold float in *. lia.
  - assert (Hv : forall j : nat, (j < Z.to_nat n)%nat -> valid_f32 (src !!! j) = true)
      by (intros j Hj; now apply Hvalid).
    assert (Hnn : forall j : nat, (j < Z.to_nat n)%nat ->
                    valid_f32 (src !!! j) = true /\ is_nan (src !!! j) = false)
      by assumption.
    pose proof (not_all_zero src _ Hnot) as Hnz.
    rewrite (l2_norm_positive src _ Hv Hnz).
    rewrite scale_loop_lookup_lt by lia.
    eexists. split; [reflexivity|].
    apply scale_sign; [now apply Hvalid|].
    apply reciprocal_sign, f64_sqrt_positive.
    now apply sum_squares_nonneg.
Qed.

Lemma l2_keeps_signs_witness :
  let src := [Stub.f32_of_Z (-3); Stub.f32_of_Z 4; S754_zero true] in
  exists y, rm_l2_normalize (Stub.zeros 3) src 3 !! 0%nat = Some y /\
            (is_nan y = true \/ f_sign y = true).
Proof.
  intros src.
  apply (l2_keeps_signs (Stub.zeros 3) src 3).
  - lia.
  - vm_compute. discriminate.
  - vm_compute. discriminate.
  - repeat constructor.
  - vm_compute. lia.
Defined.
